(** * Netflix EDA dashboard: the cleaning and aggregation layer of [net.py]

    A shallow embedding of the data-cleaning block (lines 48-54 of
    [src/net.py]) and of the aggregations behind the fourteen views, with
    the pandas and Python operations they are built from.

    Conventions.
    - A Python [str] is a [string] holding its UTF-8 bytes.  Python orders
      strings by code point, and so does byte-wise comparison of UTF-8, so
      [String.compare] is the order pandas sorts group keys by.
    - A missing cell (NaN, None, NaT) of a text column is [None]; a float64
      column holds [spec_float] (binary64) and its missing marker is
      [S754_nan], as in pandas.
    - [str.strip()] removes every character Python calls white space, the
      non-ASCII ones through their UTF-8 encodings.  The regular expression
      [\d] is taken on the ASCII digits [0-9]; the decimal digits of other
      scripts, which Python's [re] also accepts, are not modelled. *)

From Stdlib Require Import List String Ascii Bool Arith NArith ZArith QArith Lia.
From Stdlib Require Import SpecFloat OrderedTypeEx Sorted Permutation Lqa.
Import ListNotations.

Local Close Scope Q_scope.
Local Open Scope nat_scope.
Local Open Scope string_scope.
Local Open Scope list_scope.

(** ** Python string operations *)

Module Py.

Definition byte_in (lo hi : N) (c : ascii) : bool :=
  (N.leb lo (N_of_ascii c) && N.leb (N_of_ascii c) hi)%bool.

Definition byte_is (n : N) (c : ascii) : bool := N.eqb (N_of_ascii c) n.

(** White space of one byte: U+0009-U+000D, U+001C-U+001F and U+0020. *)
Definition space1 (a : ascii) : bool :=
  (byte_in 9 13 a || byte_in 28 32 a)%bool.

(** White space of two bytes: U+0085 and U+00A0. *)
Definition space2 (a b : ascii) : bool :=
  (byte_is 194 a && (byte_is 133 b || byte_is 160 b))%bool.

(** White space of three bytes: U+1680, U+2000-U+200A, U+2028, U+2029,
    U+202F, U+205F and U+3000. *)
Definition space3 (a b c : ascii) : bool :=
  ((byte_is 225 a && byte_is 154 b && byte_is 128 c)
   || (byte_is 226 a && byte_is 128 b
       && (byte_in 128 138 c || byte_is 168 c || byte_is 169 c || byte_is 175 c))
   || (byte_is 226 a && byte_is 129 b && byte_is 159 c)
   || (byte_is 227 a && byte_is 128 b && byte_is 128 c))%bool.

(** Drops the white space a byte sequence starts with; [s2] and [s3]
    recognise the two- and three-byte characters in reading order. *)
Fixpoint drop_spaces (s2 : ascii -> ascii -> bool)
         (s3 : ascii -> ascii -> ascii -> bool) (l : list ascii) : list ascii :=
  match l with
  | [] => []
  | a :: l1 =>
      if space1 a then drop_spaces s2 s3 l1 else
      match l1 with
      | b :: l2 =>
          if s2 a b then drop_spaces s2 s3 l2 else
          match l2 with
          | c :: l3 => if s3 a b c then drop_spaces s2 s3 l3 else l
          | [] => l
          end
      | [] => l
      end
  end.

Definition lstrip_bytes (l : list ascii) : list ascii :=
  drop_spaces space2 space3 l.

(** The trailing white space is the leading white space of the reversed
    bytes, each character read backwards. *)
Definition rstrip_bytes (l : list ascii) : list ascii :=
  rev (drop_spaces (fun a b => space2 b a) (fun a b c => space3 c b a) (rev l)).

(** [s.strip()] *)
Definition strip (s : string) : string :=
  string_of_list_ascii (rstrip_bytes (lstrip_bytes (list_ascii_of_string s))).

(** [s.split(sep)] for a one-character separator: empty pieces are kept,
    and the empty string splits into one empty piece. *)
Fixpoint split (sep : ascii) (s : string) : list string :=
  match s with
  | EmptyString => [EmptyString]
  | String c r =>
      if Ascii.eqb c sep then EmptyString :: split sep r
      else match split sep r with
           | p :: ps => String c p :: ps
           | [] => [String c EmptyString]
           end
  end.

Definition is_digit (c : ascii) : bool := byte_in 48 57 c.

(** The longest run of digits a string starts with. *)
Fixpoint digit_prefix (s : string) : string :=
  match s with
  | EmptyString => EmptyString
  | String c r => if is_digit c then String c (digit_prefix r) else EmptyString
  end.

(** [re.search(r'(\d+)', s)]: group 1 of the leftmost match, which is
    greedy, or [None] when nothing matches. *)
Fixpoint search_digits (s : string) : option string :=
  match s with
  | EmptyString => None
  | String c r => if is_digit c then Some (digit_prefix s) else search_digits r
  end.

(** The number a string of decimal digits reads as. *)
Definition decimal_value (s : string) : N :=
  fold_left (fun acc c => (10 * acc + (N_of_ascii c - 48))%N)
            (list_ascii_of_string s) 0%N.

End Py.

(** ** binary64 *)

Module Float64.

Definition prec : Z := 53.
Definition emax : Z := 1024.

(** The double nearest to an integer, ties to even, infinite on overflow. *)
Definition of_Z (z : Z) : spec_float := binary_normalize prec emax z 0 false.

(** [float(s)] for a string of decimal digits. *)
Definition of_digits (s : string) : spec_float := of_Z (Z.of_N (Py.decimal_value s)).

Definition is_nan (x : spec_float) : bool :=
  match x with S754_nan => true | _ => false end.

(** The rational a finite double denotes; [None] for NaN and the
    infinities (numpy's [isfinite]). *)
Definition value (x : spec_float) : option Q :=
  match x with
  | S754_zero _ => Some 0%Q
  | S754_finite s m e =>
      let n := if s then Zneg m else Zpos m in
      Some (match e with
            | Zneg p => Qmake n (Pos.shiftl 1 (Npos p))
            | _ => inject_Z (n * 2 ^ e)
            end)
  | _ => None
  end.

End Float64.

(** ** pandas operations *)

Module Pd.

(** A Series: its cells in index order, [None] for a missing one. *)
Definition Series (A : Type) : Type := list (option A).

Definition present {A} (x : option A) : bool :=
  match x with Some _ => true | None => false end.

(** [s.fillna(v)], cell by cell. *)
Definition fillna {A} (v : A) (x : option A) : option A :=
  match x with Some _ => x | None => Some v end.

(** [s.dropna()] *)
Definition dropna {A} (s : Series A) : Series A := filter present s.

(** [s.str.split(sep)] *)
Definition str_split (sep : ascii) (s : Series string) : Series (list string) :=
  map (option_map (Py.split sep)) s.

(** [s.explode()]: one cell per list element, in order; a missing cell
    and an empty list give one missing cell. *)
Definition explode {A} (s : Series (list A)) : Series A :=
  flat_map (fun x => match x with
                     | Some (a :: l) => map Some (a :: l)
                     | _ => [None]
                     end) s.

(** [s.str.strip()] *)
Definition str_strip (s : Series string) : Series string :=
  map (option_map Py.strip) s.

(** [s.str[0]]: the first element of each list, missing when there is none. *)
Definition str_first {A} (s : Series (list A)) : Series A :=
  map (fun x => match x with Some (a :: _) => Some a | _ => None end) s.

(** One more occurrence of [k] in a tally kept in first-seen order. *)
Fixpoint bump (k : string) (t : list (string * nat)) : list (string * nat) :=
  match t with
  | [] => [(k, 1)]
  | (k', c) :: r => if String.eqb k k' then (k', S c) :: r else (k', c) :: bump k r
  end.

Definition tally (s : Series string) : list (string * nat) :=
  fold_left (fun t x => match x with Some k => bump k t | None => t end) s [].

(** Insertion into a list ordered by decreasing count, before the
    entries that do not have a greater count. *)
Fixpoint insert_desc (e : string * nat) (t : list (string * nat)) : list (string * nat) :=
  match t with
  | [] => [e]
  | h :: r => if Nat.ltb (snd e) (snd h) then h :: insert_desc e r else e :: t
  end.

Definition sort_desc (t : list (string * nat)) : list (string * nat) :=
  fold_right insert_desc [] t.

(** [s.value_counts()]: the distinct present values with their number of
    occurrences, by decreasing count.  Equal counts are left here in
    first-seen order; pandas leaves their order to the sort it calls. *)
Definition value_counts (s : Series string) : list (string * nat) :=
  sort_desc (tally s).

(** [s.head(n)] *)
Definition head {A} (n : nat) (l : list A) : list A := firstn n l.

(** The order of a two-column group key: first column, then second. *)
Definition key_compare (a b : string * string) : comparison :=
  match String.compare (fst a) (fst b) with
  | Eq => String.compare (snd a) (snd b)
  | c => c
  end.

(** One more row in the group of key [k], the groups kept in key order. *)
Fixpoint group_add (k : string * string) (g : list (string * string * nat))
  : list (string * string * nat) :=
  match g with
  | [] => [(k, 1)]
  | (k', c) :: r =>
      match key_compare k k' with
      | Lt => (k, 1) :: g
      | Eq => (k', S c) :: r
      | Gt => (k', c) :: group_add k r
      end
  end.

(** [df.groupby([a, b]).size().reset_index(name='count')] on the two key
    columns: a row with a missing key is in no group ([dropna=True]),
    and the groups come in key order ([sort=True]). *)
Definition groupby_size (keys : list (option string * option string))
  : list (string * string * nat) :=
  fold_left (fun g k => match k with
                        | (Some a, Some b) => group_add (a, b) g
                        | _ => g
                        end) keys [].

(** [df[c] = s] aligns on the index: row [i] gets cell [i] of [s], and a
    missing cell where [s] has none. *)
Fixpoint assign {R X Y} (upd : R -> option X -> Y) (rows : list R) (s : Series X)
  : list Y :=
  match rows with
  | [] => []
  | r :: rs =>
      match s with
      | [] => upd r None :: assign upd rs []
      | x :: xs => upd r x :: assign upd rs xs
      end
  end.

(** A column as pandas types it. *)
Inductive column (T : Type) : Type :=
| Object (s : Series string)
| Datetime (s : Series T)
| Float (s : list spec_float).
Arguments Object {T} s.
Arguments Datetime {T} s.
Arguments Float {T} s.

Inductive error : Type :=
| AttributeError.

(** [s.dropna()] on a typed column. *)
Definition column_dropna {T} (c : column T) : column T :=
  match c with
  | Object s => Object (dropna s)
  | Datetime s => Datetime (dropna s)
  | Float s => Float (filter (fun x => negb (Float64.is_nan x)) s)
  end.

(** [s.str]: only a column of strings has the accessor. *)
Definition str {T} (c : column T) : error + Series string :=
  match c with
  | Object s => inr s
  | _ => inl AttributeError
  end.

End Pd.

(** ** The catalog table *)

(** The two pandas parsers the cleaning block calls, whose code is not in
    the repository. *)
Class Parsers : Type := {
  Timestamp : Type;
  (** [pd.to_datetime(col, errors='coerce')] on a whole column. *)
  to_datetime : Pd.Series string -> Pd.Series Timestamp;
  (** [ts.year] *)
  year : Timestamp -> Z;
  (** [pd.to_numeric(errors='coerce')] on a string cell: NaN when it is not a number. *)
  parse_number : string -> spec_float
}.

(** A cell of a column that [read_csv] left as numbers or as strings. *)
Inductive scalar : Type :=
| Num (x : spec_float)
| Str (s : string).

Module Raw.
(** A row of the table as loaded. *)
Record row : Type := {
  type : option string;
  title : option string;
  director : option string;
  cast : option string;
  country : option string;
  date_added : option string;
  release_year : option scalar;
  rating : option string;
  duration : option string;
  listed_in : option string
}.
End Raw.

(** A row of the table after the cleaning block. *)
Record row {P : Parsers} : Type := {
  type : option string;
  title : option string;
  director : option string;
  cast : option string;
  country : option string;
  date_added : option Timestamp;
  release_year : spec_float;
  rating : option string;
  duration : option string;
  listed_in : option string;
  year_added : spec_float;
  duration_num : spec_float
}.

Section Cleaning.
Context {P : Parsers}.

(** [pd.to_numeric(cell, errors='coerce')] *)
Definition to_numeric (x : option scalar) : spec_float :=
  match x with
  | None => S754_nan
  | Some (Num f) => f
  | Some (Str s) => parse_number s
  end.

(** [.dt.year] of a cell *)
Definition dt_year (d : option Timestamp) : spec_float :=
  match d with
  | None => S754_nan
  | Some t => Float64.of_Z (year t)
  end.

(** [.str.extract(r'(\d+)').astype(float)] of a cell *)
Definition extract_number (d : option string) : spec_float :=
  match d with
  | None => S754_nan
  | Some s =>
      match Py.search_digits s with
      | None => S754_nan
      | Some ds => Float64.of_digits ds
      end
  end.

(** Lines 48-54 on one row, given its cell of the parsed date column. *)
Definition clean_row (r : Raw.row) (d : option Timestamp) : row :=
  {| type := Raw.type r;
     title := Raw.title r;
     director := Pd.fillna "Unknown" (Raw.director r);
     cast := Pd.fillna "Unknown" (Raw.cast r);
     country := Pd.fillna "Unknown" (Raw.country r);
     date_added := d;
     release_year := to_numeric (Raw.release_year r);
     rating := Raw.rating r;
     duration := Raw.duration r;
     listed_in := Raw.listed_in r;
     year_added := dt_year d;
     duration_num := extract_number (Raw.duration r) |}.

(** The cleaning block, lines 48-54. *)
Definition clean (df : list Raw.row) : list row :=
  Pd.assign clean_row df (to_datetime (map Raw.date_added df)).

End Cleaning.

(** ** Pearson correlation, [DataFrame.corr()]

    The sums are taken in exact rational arithmetic on the values the
    doubles denote, and the square root of the divisor is not taken: a
    coefficient is kept as its numerator and the square of its divisor.
    Rounding is not modelled. *)

Module Corr.

(** The observations of two columns on the rows where both are finite. *)
Definition complete (x y : list spec_float) : list (Q * Q) :=
  flat_map (fun p => match Float64.value (fst p), Float64.value (snd p) with
                     | Some a, Some b => [(a, b)]
                     | _, _ => []
                     end) (combine x y).

Definition Qsum (l : list Q) : Q := fold_right Qplus 0%Q l.

Definition mean (l : list Q) : Q :=
  (Qsum l / inject_Z (Z.of_nat (List.length l)))%Q.

(** The sum of the products of the deviations from the two means. *)
Definition codev (ps : list (Q * Q)) : Q :=
  let mx := mean (map fst ps) in
  let my := mean (map snd ps) in
  Qsum (map (fun p => ((fst p - mx) * (snd p - my))%Q) ps).

Definition twice (xs : list Q) : list (Q * Q) := map (fun x => (x, x)) xs.

(** The coefficient [numerator / sqrt radicand], with [0 < radicand]. *)
Record coefficient : Type := {
  numerator : Q;
  radicand : Q
}.

(** The coefficient of the observations [ps]: NaN ([None]) below
    [min_periods = 1] observations and when the divisor is zero. *)
Definition pearson_of (ps : list (Q * Q)) : option coefficient :=
  let d := (codev (twice (map fst ps)) * codev (twice (map snd ps)))%Q in
  if Nat.ltb (List.length ps) 1 || Qeq_bool d 0%Q then None
  else Some {| numerator := codev ps; radicand := d |}.

Definition pearson (x y : list spec_float) : option coefficient :=
  pearson_of (complete x y).

(** [df[cols].corr()] *)
Definition corr (cols : list (list spec_float)) : list (list (option coefficient)) :=
  map (fun a => map (fun b => pearson a b) cols) cols.

(** The entry of row [i] and column [j], NaN outside the matrix. *)
Definition entry (m : list (list (option coefficient))) (i j : nat) : option coefficient :=
  nth j (nth i m []) None.


(** Two coefficients that denote the same number, or are both NaN. *)
Definition same (c d : option coefficient) : Prop :=
  match c, d with
  | Some k, Some l => (numerator k == numerator l)%Q /\ (radicand k == radicand l)%Q
  | None, None => True
  | _, _ => False
  end.

End Corr.

(** ** The views *)

Section Views.
Context {P : Parsers}.

(** The columns of the cleaned table. *)
Inductive name : Type :=
| col_type | col_title | col_director | col_cast | col_country
| col_date_added | col_release_year | col_rating | col_duration
| col_listed_in | col_year_added | col_duration_num.

(** [df[c]] *)
Definition getitem (df : list row) (c : name) : Pd.column Timestamp :=
  match c with
  | col_type => Pd.Object (map type df)
  | col_title => Pd.Object (map title df)
  | col_director => Pd.Object (map director df)
  | col_cast => Pd.Object (map cast df)
  | col_country => Pd.Object (map country df)
  | col_date_added => Pd.Datetime (map date_added df)
  | col_release_year => Pd.Float (map release_year df)
  | col_rating => Pd.Object (map rating df)
  | col_duration => Pd.Object (map duration df)
  | col_listed_in => Pd.Object (map listed_in df)
  | col_year_added => Pd.Float (map year_added df)
  | col_duration_num => Pd.Float (map duration_num df)
  end.

(** The labels of a column of comma-separated lists,
    [.str.split(',').explode().str.strip()]. *)
Definition labels (s : Pd.Series string) : Pd.Series string :=
  Pd.str_strip (Pd.explode (Pd.str_split "," s)).

(** [df[c].dropna().str.split(',').explode().str.strip().value_counts().head(n)],
    the pipeline of lines 135, 153, 229 and 247. *)
Definition topN (df : list row) (c : name) (n : nat) : Pd.error + list (string * nat) :=
  match Pd.str (Pd.column_dropna (getitem df c)) with
  | inl e => inl e
  | inr s => inr (Pd.head n (Pd.value_counts (labels s)))
  end.

(** Lines 135, 153, 229 and 247. *)
Definition genres (df : list row) := topN df col_listed_in 10.
Definition countries (df : list row) := topN df col_country 10.
Definition actors (df : list row) := topN df col_cast 10.
Definition directors (df : list row) := topN df col_director 10.

(** [df['rating'].value_counts().head(10)], line 171. *)
Definition ratings (df : list row) : list (string * nat) :=
  Pd.head 10 (Pd.value_counts (map rating df)).

(** [df[df['type'] == t]['duration_num'].dropna()], lines 189 and 209. *)
Definition durations_of (t : string) (df : list row) : list spec_float :=
  filter (fun x => negb (Float64.is_nan x))
         (map duration_num
              (filter (fun r => match type r with
                                | Some s => String.eqb s t
                                | None => false
                                end) df)).

Definition movie_durations (df : list row) : list spec_float := durations_of "Movie" df.
Definition tv_seasons (df : list row) : list spec_float := durations_of "TV Show" df.

(** [s.unique()] on doubles without NaN: first occurrences, in order. *)
Fixpoint unique (l : list spec_float) : list spec_float :=
  match l with
  | [] => []
  | x :: r => x :: filter (fun y => negb (SFeqb y x)) (unique r)
  end.

Fixpoint insert_float (x : spec_float) (l : list spec_float) : list spec_float :=
  match l with
  | [] => [x]
  | y :: r => if SFltb y x then y :: insert_float x r else x :: l
  end.

(** [sorted(...)] on doubles without NaN. *)
Definition sorted (l : list spec_float) : list spec_float :=
  fold_right insert_float [] l.

(** [sorted(df['year_added'].dropna().unique())], line 118. *)
Definition years_in_order (df : list row) : list spec_float :=
  sorted (unique (filter (fun x => negb (Float64.is_nan x)) (map year_added df))).

(** [df.isnull()] on one row, the columns in the order of [name]. *)
Definition isnull (r : row) : list bool :=
  [ negb (Pd.present (type r)); negb (Pd.present (title r));
    negb (Pd.present (director r)); negb (Pd.present (cast r));
    negb (Pd.present (country r)); negb (Pd.present (date_added r));
    Float64.is_nan (release_year r); negb (Pd.present (rating r));
    negb (Pd.present (duration r)); negb (Pd.present (listed_in r));
    Float64.is_nan (year_added r); Float64.is_nan (duration_num r) ].

(** [df[['release_year', 'year_added', 'duration_num']].corr()], line 266. *)
Definition correlationMatrix (df : list row) : list (list (option Corr.coefficient)) :=
  Corr.corr [map release_year df; map year_added df; map duration_num df].

(** The right-hand side of line 282: [.str.split(',').str[0].str.strip()]
    on the country column. *)
Definition first_country (df : list row) : Pd.Series string :=
  Pd.str_strip (Pd.str_first (Pd.str_split "," (map country df))).

Definition with_country (r : row) (c : option string) : row :=
  {| type := type r; title := title r; director := director r; cast := cast r;
     country := c; date_added := date_added r; release_year := release_year r;
     rating := rating r; duration := duration r; listed_in := listed_in r;
     year_added := year_added r; duration_num := duration_num r |}.

(** Lines 283-284: the group sizes by country and type, the groups of
    country ["Unknown"] removed. *)
Definition country_count (country_df : list row) : list (string * string * nat) :=
  filter (fun g => negb (String.eqb (fst (fst g)) "Unknown"))
         (Pd.groupby_size (map (fun r => (country r, type r)) country_df)).

(** Lines 281-284 as a function of the cleaned table. *)
Definition groupByCountryAndType (df : list row) : list (string * string * nat) :=
  country_count (Pd.assign with_country df (first_country df)).

(** *** The script's objects

    A DataFrame is an object on the heap and a variable holds its
    address: [df.copy()] allocates, [x[c] = s] updates in place. *)

Definition ref : Type := nat.
Definition heap : Type := list (list row).

(** A computation that reads and updates the heap and may raise. *)
Definition M (A : Type) : Type := heap -> (Pd.error + A) * heap.

Definition ret {A} (a : A) : M A := fun h => (inr a, h).

Definition bind {A B} (m : M A) (k : A -> M B) : M B :=
  fun h => match m h with
           | (inl e, h') => (inl e, h')
           | (inr a, h') => k a h'
           end.

Definition raise_or {A} (x : Pd.error + A) : M A := fun h => (x, h).

(** The rows of the DataFrame at [l]. *)
Definition deref (l : ref) : M (list row) := fun h => (inr (nth l h []), h).

(** [x.copy()]: a new object with the same rows. *)
Definition copy (l : ref) : M ref :=
  fun h => (inr (List.length h), h ++ [nth l h []]).

Fixpoint store (l : ref) (v : list row) (h : heap) : heap :=
  match h, l with
  | [], _ => []
  | _ :: r, O => v :: r
  | x :: r, S l' => x :: store l' v r
  end.

(** [x['country'] = s]: the object at [l] is updated in place. *)
Definition setitem_country (l : ref) (s : Pd.Series string) : M unit :=
  fun h => (inr tt, store l (Pd.assign with_country (nth l h []) s) h).

(** The global variable [df] of the script. *)
Definition df : ref := 0.

Inductive choice : Type :=
| DatasetPreview | DataCleaning | MissingDataHeatmap | MoviesVsTVShows
| TitlesAddedPerYear | Top10Genres | Top10Countries | RatingsDistribution
| MovieDurationDistribution | TVShowSeasonCounts | Top10Actors
| Top10Directors | CorrelationHeatmap | GlobalDistribution.

(** What a view hands to the page or to the plotting library. *)
Inductive shown : Type :=
| Table (rows : list row)
| Text
| Mask (m : list (list bool))
| Counted (x : Pd.Series string)
| CountedInOrder (order x : list spec_float)
| Bars (t : list (string * nat))
| Values (x : list spec_float)
| Matrix (m : list (list (option Corr.coefficient)))
| Groups (g : list (string * string * nat)).

End Views.

Notation "x <- m ;; k" := (bind m (fun x => k))
  (at level 61, m at next level, right associativity).

Section Dispatch.
Context {P : Parsers}.

(** The branch of the [if]/[elif] chain of lines 67-318 taken for a choice. *)
Definition view (c : choice) : M shown :=
  match c with
  | DatasetPreview => t <- deref df ;; ret (Table (Pd.head 5 t))
  | DataCleaning => ret Text
  | MissingDataHeatmap => t <- deref df ;; ret (Mask (map isnull t))
  | MoviesVsTVShows => t <- deref df ;; ret (Counted (map type t))
  | TitlesAddedPerYear =>
      t <- deref df ;; ret (CountedInOrder (years_in_order t) (map year_added t))
  | Top10Genres =>
      t <- deref df ;; g <- raise_or (genres t) ;; ret (Bars g)
  | Top10Countries =>
      t <- deref df ;; g <- raise_or (countries t) ;; ret (Bars g)
  | RatingsDistribution =>
      t <- deref df ;; ret (Bars (ratings t))
  | MovieDurationDistribution =>
      t <- deref df ;; ret (Values (movie_durations t))
  | TVShowSeasonCounts =>
      t <- deref df ;; ret (Values (tv_seasons t))
  | Top10Actors =>
      t <- deref df ;; g <- raise_or (actors t) ;; ret (Bars g)
  | Top10Directors =>
      t <- deref df ;; g <- raise_or (directors t) ;; ret (Bars g)
  | CorrelationHeatmap => t <- deref df ;; ret (Matrix (correlationMatrix t))
  | GlobalDistribution =>
      country_df <- copy df ;;
      t <- deref country_df ;;
      _ <- setitem_country country_df (first_country t) ;;
      t' <- deref country_df ;;
      ret (Groups (country_count t'))
  end.

End Dispatch.

(** ** A table to run the definitions on *)

(** Parsers for dates written [YYYY...] and for whole numbers; they stand
    in for pandas' where an example needs a value. *)
Definition year_digits (s : string) : option Z :=
  match Py.search_digits s with
  | Some ds => if String.eqb (Py.digit_prefix s) ds
               then Some (Z.of_N (Py.decimal_value ds)) else None
  | None => None
  end.

#[export] Instance sample_parsers : Parsers := {|
  Timestamp := Z;
  to_datetime := map (fun x => match x with Some s => year_digits s | None => None end);
  year := fun t => t;
  parse_number := fun s => match year_digits s with
                           | Some z => Float64.of_Z z
                           | None => S754_nan
                           end
|}.

Definition raw_entry (co da du : option string) : Raw.row :=
  {| Raw.type := Some "Movie"; Raw.title := None; Raw.director := None;
     Raw.cast := None; Raw.country := co; Raw.date_added := da;
     Raw.release_year := Some (Str "2019"); Raw.rating := None;
     Raw.duration := du; Raw.listed_in := None |}.

Definition entry {P : Parsers} (ty co li : option string) (ry : Z) : row :=
  {| type := ty; title := None; director := Some "Unknown"; cast := Some "Unknown";
     country := co; date_added := None; release_year := Float64.of_Z ry;
     rating := None; duration := None; listed_in := li;
     year_added := S754_nan; duration_num := S754_nan |}.

Definition row_A {P : Parsers} : row :=
  entry (P := P) (Some "Movie") (Some "France, Belgium") None 2019.

Definition row_B {P : Parsers} : row :=
  entry (P := P) (Some "TV Show") (Some "Unknown") None 2019.

Definition row_USA_India {P : Parsers} : row :=
  entry (P := P) (Some "Movie") (Some "USA, India") None 2019.

(** ** Vocabulary of the statements *)

(** The count a ranking gives a label, 0 when the label is not in it. *)
Definition count_of (l : string) (t : list (string * nat)) : nat :=
  list_sum (map snd (filter (fun e => String.eqb (fst e) l) t)).

(** The size the grouping gives a (country, type) pair, 0 when the pair
    is not in it. *)
Definition size_of (c ty : string) (g : list (string * string * nat)) : nat :=
  list_sum (map snd (filter (fun e => String.eqb (fst (fst e)) c
                                      && String.eqb (snd (fst e)) ty) g)).

(** The trimmed comma-separated pieces of a cell, none for a missing cell. *)
Definition pieces (x : option string) : list string :=
  match x with
  | Some v => map Py.strip (Py.split "," v)
  | None => []
  end.

(** The first comma-separated piece of a string, trimmed. *)
Definition first_piece (v : string) : string :=
  Py.strip (hd EmptyString (Py.split "," v)).

(** The group a row of the cleaned table belongs to, if any. *)
Definition group_key {P : Parsers} (r : row) : option (string * string) :=
  match country r, type r with
  | Some c, Some t => Some (first_piece c, t)
  | _, _ => None
  end.

(** The number of rows of a table that belong to a group. *)
Definition rows_in_group {P : Parsers} (c ty : string) (t : list row) : nat :=
  List.length (filter (fun r => match group_key r with
                                | Some k => String.eqb (fst k) c && String.eqb (snd k) ty
                                | None => false
                                end) t).

(** Country ascending, then type ascending. *)
Definition before (a b : string * string * nat) : Prop :=
  String.compare (fst (fst a)) (fst (fst b)) = Lt
  \/ (fst (fst a) = fst (fst b)
      /\ String.compare (snd (fst a)) (snd (fst b)) = Lt).

(** The number of occurrences of a character in a string. *)
Fixpoint occurrences (c : ascii) (s : string) : nat :=
  match s with
  | EmptyString => 0
  | String a r => (if Ascii.eqb a c then 1 else 0) + occurrences c r
  end.






(** A pair of key cells is the key of the group of country [c] and type [ty]. *)
Definition in_group (c ty : string) (k : option string * option string) : bool :=
  match k with
  | (Some a, Some b) => String.eqb a c && String.eqb b ty
  | _ => false
  end.

(** The cell holds the label [l]. *)
Definition labelled (l : string) (x : option string) : bool :=
  match x with Some k => String.eqb k l | None => false end.

(** By decreasing count. *)
Definition ranked (a b : string * nat) : Prop := snd b <= snd a.




(** The sum of the counts of a ranking. *)
Definition total (t : list (string * nat)) : nat := list_sum (map snd t).

(** The number of pieces a cell splits into, none for a missing cell. *)
Definition piece_count (x : option string) : nat :=
  match x with
  | Some v => S (occurrences "," v)
  | None => 0
  end.

(** The number of cells that hold exactly [l]. *)
Definition cells_equal (l : string) (s : Pd.Series string) : nat :=
  List.length (filter (labelled l) s).

(** The group a raw row ends up in after cleaning, if any: a missing
    country reads ["Unknown"]. *)
Definition raw_group_key (r : Raw.row) : option (string * string) :=
  match Raw.type r with
  | Some t => Some (first_piece (match Raw.country r with
                                 | Some c => c
                                 | None => "Unknown"
                                 end), t)
  | None => None
  end.

(** The key is that of the group of country [c] and type [ty]. *)
Definition is_group (c ty : string) (k : option (string * string)) : bool :=
  match k with
  | Some k => String.eqb (fst k) c && String.eqb (snd k) ty
  | None => false
  end.




(** A byte sequence that does not start with white space, [s2] and [s3]
    recognising the characters of two and three bytes. *)
Definition starts_clean (s2 : ascii -> ascii -> bool)
           (s3 : ascii -> ascii -> ascii -> bool) (l : list ascii) : Prop :=
  match l with
  | [] => True
  | a :: l1 =>
      Py.space1 a = false
      /\ match l1 with
         | [] => True
         | b :: l2 =>
             s2 a b = false
             /\ match l2 with
                | [] => True
                | c :: _ => s3 a b c = false
                end
         end
  end.

(** The number of occurrences of a byte in a sequence. *)
Fixpoint count_byte (c : ascii) (l : list ascii) : nat :=
  match l with
  | [] => 0
  | a :: r => (if Ascii.eqb a c then 1 else 0) + count_byte c r
  end.


(** The number of rows in the groups whose key satisfies [p]. *)
Definition sum_where (p : string * string -> bool) (g : list (string * string * nat)) : nat :=
  list_sum (map snd (filter (fun e => p (fst e)) g)).

(** The pair of key cells is a key that satisfies [p]. *)
Definition key_where (p : string * string -> bool) (k : option string * option string) : bool :=
  match k with
  | (Some a, Some b) => p (a, b)
  | _ => false
  end.

(** * Properties *)

(** ** Column assignment *)


Lemma assign_map_indep {R X Y Z} (upd : R -> option X -> Y) (f : Y -> Z) (g : R -> Z)
      (rows : list R) (s : Pd.Series X) :
  (forall r x, f (upd r x) = g r) ->
  map f (Pd.assign upd rows s) = map g rows.
Proof.
  intros H; revert s; induction rows as [|r rows IH]; intros s; simpl; [reflexivity|].
  destruct s; simpl; now rewrite H, IH.
Qed.

Lemma assign_map_same {R X Y} (upd : R -> option X -> Y) (f : R -> option X) (rows : list R) :
  Pd.assign upd rows (map f rows) = map (fun r => upd r (f r)) rows.
Proof.
  induction rows as [|r rows IH]; simpl; [reflexivity|]. now rewrite IH.
Qed.



(** ** The cleaning block *)

Section CleaningFacts.
Context {P : Parsers}.

Lemma clean_column {Z} (f : row -> Z) (g : Raw.row -> Z) (raw : list Raw.row) :
  (forall r d, f (clean_row r d) = g r) ->
  map f (clean raw) = map g raw.
Proof. intros H. unfold clean. now apply assign_map_indep. Qed.

(** C1. After the cleaning block the director, cast and country cells of
    every row are present: the cell of a row whose raw cell was missing
    is ["Unknown"], and the cell of any other row is its raw cell. *)
Theorem C1_unknown_fills_missing (raw : list Raw.row) :
  let fill := fun x : option string =>
                match x with Some v => Some v | None => Some "Unknown" end in
  map director (clean raw) = map (fun r => fill (Raw.director r)) raw
  /\ map cast (clean raw) = map (fun r => fill (Raw.cast r)) raw
  /\ map country (clean raw) = map (fun r => fill (Raw.country r)) raw
  /\ Forall (fun r => director r <> None /\ cast r <> None /\ country r <> None)
            (clean raw).
Proof.
  intros fill.
  assert (Hfill : forall x, Pd.fillna "Unknown" x = fill x) by (intros [v|]; reflexivity).
  repeat split.
  - apply clean_column. intros r d. apply Hfill.
  - apply clean_column. intros r d. apply Hfill.
  - apply clean_column. intros r d. apply Hfill.
  - unfold clean. generalize (to_datetime (map Raw.date_added raw)).
    induction raw as [|r raw IH]; intros s; simpl; [constructor|].
    assert (Hr : forall d, director (clean_row r d) <> None
                           /\ cast (clean_row r d) <> None
                           /\ country (clean_row r d) <> None).
    { intros d. simpl.
      destruct (Raw.director r), (Raw.cast r), (Raw.country r); simpl;
        repeat split; discriminate. }
    destruct s; constructor; auto.
Qed.


End CleaningFacts.

(** ** Doubles of whole numbers *)








(** ** The digits of a duration *)






Section DurationFacts.
Context {P : Parsers}.


End DurationFacts.

(** ** The order of the group keys *)

Lemma compare_refl (s : string) : String.compare s s = Eq.
Proof. now apply String_as_OT.cmp_eq. Qed.

Lemma compare_lt_trans (a b c : string) :
  String.compare a b = Lt -> String.compare b c = Lt -> String.compare a c = Lt.
Proof.
  intros H1 H2. apply String_as_OT.cmp_lt in H1, H2. apply String_as_OT.cmp_lt.
  eapply String_as_OT.lt_trans; eassumption.
Qed.

Lemma compare_gt_lt (a b : string) :
  String.compare a b = Gt -> String.compare b a = Lt.
Proof.
  intros H. pose proof (String_as_OT.cmp_antisym b a) as Ha. unfold String_as_OT.cmp in Ha.
  rewrite H in Ha. exact Ha.
Qed.

Lemma key_compare_eq (a b : string * string) :
  Pd.key_compare a b = Eq <-> a = b.
Proof.
  destruct a as [a1 a2], b as [b1 b2]. unfold Pd.key_compare. simpl.
  destruct (String.compare a1 b1) eqn:H1.
  - apply String_as_OT.cmp_eq in H1. subst b1. split.
    + intros H2. apply String_as_OT.cmp_eq in H2. now subst.
    + intros H. injection H as ->. apply compare_refl.
  - split; [discriminate|]. intros H. injection H as -> ->.
    rewrite compare_refl in H1. discriminate.
  - split; [discriminate|]. intros H. injection H as -> ->.
    rewrite compare_refl in H1. discriminate.
Qed.

Lemma key_compare_lt (a b : string * string) (n m : nat) :
  Pd.key_compare a b = Lt <-> before (a, n) (b, m).
Proof.
  destruct a as [a1 a2], b as [b1 b2]. unfold Pd.key_compare, before. simpl.
  destruct (String.compare a1 b1) eqn:H1.
  - apply String_as_OT.cmp_eq in H1. subst b1. split.
    + intros H. right. auto.
    + intros [H|[_ H]]; [discriminate|exact H].
  - split; auto.
  - split; [discriminate|]. intros [H|[H _]]; [discriminate|]. subst.
    rewrite compare_refl in H1. discriminate.
Qed.

Lemma key_compare_gt (a b : string * string) (n m : nat) :
  Pd.key_compare a b = Gt -> before (b, m) (a, n).
Proof.
  destruct a as [a1 a2], b as [b1 b2]. unfold Pd.key_compare, before. simpl.
  destruct (String.compare a1 b1) eqn:H1.
  - apply String_as_OT.cmp_eq in H1. subst b1. intros H. right.
    split; [reflexivity|]. now apply compare_gt_lt.
  - discriminate.
  - intros _. left. now apply compare_gt_lt.
Qed.

Lemma before_trans (a b c : string * string * nat) :
  before a b -> before b c -> before a c.
Proof.
  unfold before. intros [H1|[E1 H1]] [H2|[E2 H2]].
  - left. eapply compare_lt_trans; eassumption.
  - left. now rewrite <- E2.
  - left. now rewrite E1.
  - right. split; [congruence|]. eapply compare_lt_trans; eassumption.
Qed.

Lemma before_differ (a b : string * string * nat) :
  before a b -> fst a <> fst b.
Proof.
  unfold before. intros [H|[_ H]] E; rewrite E in H; rewrite compare_refl in H; discriminate.
Qed.

Lemma before_key (a b a' b' : string * string * nat) :
  fst a = fst a' -> fst b = fst b' -> before a b -> before a' b'.
Proof. unfold before. intros -> ->. auto. Qed.

(** ** Group sizes *)

Lemma size_of_cons (c ty : string) (e : string * string * nat) (g : list (string * string * nat)) :
  size_of c ty (e :: g)
  = (if String.eqb (fst (fst e)) c && String.eqb (snd (fst e)) ty then snd e else 0)
    + size_of c ty g.
Proof.
  unfold size_of. simpl.
  destruct (String.eqb (fst (fst e)) c && String.eqb (snd (fst e)) ty); reflexivity.
Qed.

Lemma key_eqb (k : string * string) (c ty : string) :
  String.eqb (fst k) c && String.eqb (snd k) ty = true <-> k = (c, ty).
Proof.
  destruct k as [a b]. simpl. rewrite andb_true_iff, !String.eqb_eq.
  split; [intros [-> ->]; reflexivity|intros H; injection H; auto].
Qed.

Lemma group_add_size (c ty : string) (k : string * string) (g : list (string * string * nat)) :
  size_of c ty (Pd.group_add k g)
  = size_of c ty g + (if String.eqb (fst k) c && String.eqb (snd k) ty then 1 else 0).
Proof.
  induction g as [|[k' n] g IH]; simpl.
  - rewrite size_of_cons. simpl. unfold size_of. simpl. lia.
  - destruct (Pd.key_compare k k') eqn:Hc.
    + apply key_compare_eq in Hc. subst k'. rewrite !size_of_cons. simpl.
      destruct (String.eqb (fst k) c && String.eqb (snd k) ty); lia.
    + rewrite !size_of_cons. simpl. lia.
    + rewrite !size_of_cons, IH. simpl. lia.
Qed.

Lemma group_add_keys (k : string * string) (g : list (string * string * nat))
      (Q : string * string * nat -> Prop) :
  (forall a b, fst a = fst b -> Q a -> Q b) ->
  Q (k, 1) -> Forall Q g -> Forall Q (Pd.group_add k g).
Proof.
  intros HQ Hk Hg. induction Hg as [|[k' n] g Hn Hg IH]; simpl.
  - constructor; [assumption|constructor].
  - destruct (Pd.key_compare k k').
    + constructor; [|assumption]. eapply HQ; [|exact Hn]. reflexivity.
    + constructor; [assumption|]. constructor; assumption.
    + constructor; assumption.
Qed.

Lemma group_add_sorted (k : string * string) (g : list (string * string * nat)) :
  StronglySorted before g -> StronglySorted before (Pd.group_add k g).
Proof.
  intros Hs. induction Hs as [|[k' n] g Hs IH Hall]; simpl.
  - constructor; constructor.
  - destruct (Pd.key_compare k k') eqn:Hc.
    + constructor; [assumption|].
      eapply Forall_impl; [|exact Hall]. intros a. now apply before_key.
    + constructor; [now constructor|].
      apply (key_compare_lt k k' 1 n) in Hc.
      constructor; [assumption|].
      eapply Forall_impl; [|exact Hall]. intros a. now apply before_trans.
    + constructor; [assumption|].
      apply group_add_keys; [| |assumption].
      * intros a b E. now apply before_key.
      * now apply (key_compare_gt k k' 1 n).
Qed.

Lemma group_add_positive (k : string * string) (g : list (string * string * nat)) :
  Forall (fun e => 0 < snd e) g -> Forall (fun e => 0 < snd e) (Pd.group_add k g).
Proof.
  intros Hg. induction Hg as [|[k' n] g Hn Hg IH]; simpl.
  - constructor; [simpl; lia|constructor].
  - destruct (Pd.key_compare k k'); constructor; simpl in *; auto; try lia.
Qed.

Lemma groupby_fold (keys : list (option string * option string))
      (acc : list (string * string * nat)) :
  let g := fold_left (fun g k => match k with
                                 | (Some a, Some b) => Pd.group_add (a, b) g
                                 | _ => g
                                 end) keys acc in
  (StronglySorted before acc -> StronglySorted before g)
  /\ (Forall (fun e => 0 < snd e) acc -> Forall (fun e => 0 < snd e) g)
  /\ forall c ty, size_of c ty g
                  = size_of c ty acc + List.length (filter (in_group c ty) keys).
Proof.
  revert acc. induction keys as [|[[a|] [b|]] keys IH]; intros acc; simpl.
  - repeat split; auto.
  - destruct (IH (Pd.group_add (a, b) acc)) as (H1 & H2 & H3).
    repeat split.
    + intros H. apply H1. now apply group_add_sorted.
    + intros H. apply H2. now apply group_add_positive.
    + intros c ty. rewrite H3, group_add_size. simpl.
      destruct (String.eqb a c && String.eqb b ty); simpl; lia.
  - apply IH.
  - apply IH.
  - apply IH.
Qed.

Lemma sorted_size (g : list (string * string * nat)) (c ty : string) (n : nat) :
  StronglySorted before g -> In (c, ty, n) g -> size_of c ty g = n.
Proof.
  intros Hs. induction Hs as [|e g Hs IH Hall]; intros Hin; [contradiction|].
  rewrite size_of_cons. destruct Hin as [->|Hin].
  - simpl. rewrite !String.eqb_refl. simpl.
    assert (H0 : size_of c ty g = 0).
    { clear IH Hs. induction Hall as [|e g He Hall IH]; [reflexivity|].
      rewrite size_of_cons, IH.
      destruct (String.eqb (fst (fst e)) c && String.eqb (snd (fst e)) ty) eqn:E; [|reflexivity].
      apply key_eqb in E. apply before_differ in He. simpl in He. congruence. }
    lia.
  - rewrite (IH Hin).
    destruct (String.eqb (fst (fst e)) c && String.eqb (snd (fst e)) ty) eqn:E; [|reflexivity].
    apply key_eqb in E. rewrite Forall_forall in Hall. apply Hall in Hin.
    apply before_differ in Hin. simpl in Hin. congruence.
Qed.

Lemma size_positive_in (g : list (string * string * nat)) (c ty : string) :
  0 < size_of c ty g -> exists n, In (c, ty, n) g.
Proof.
  induction g as [|[k n] g IH]; [unfold size_of; simpl; lia|].
  rewrite size_of_cons. simpl.
  destruct (String.eqb (fst k) c && String.eqb (snd k) ty) eqn:E.
  - apply key_eqb in E. subst k. intros _. exists n. now left.
  - intros H. destruct IH as [m Hm]; [lia|]. exists m. now right.
Qed.

Lemma sorted_filter (p : string * string * nat -> bool) (g : list (string * string * nat)) :
  StronglySorted before g -> StronglySorted before (filter p g).
Proof.
  intros Hs. induction Hs as [|e g Hs IH Hall]; simpl; [constructor|].
  destruct (p e); [|assumption]. constructor; [assumption|].
  rewrite Forall_forall in *. intros x Hx. apply filter_In in Hx. now apply Hall.
Qed.

(** ** The geography grouping *)

Lemma split_cons (sep : ascii) (s : string) :
  exists p ps, Py.split sep s = p :: ps.
Proof.
  induction s as [|c s (p & ps & IH)]; simpl; [eauto|].
  destruct (Ascii.eqb c sep); [eauto|]. rewrite IH. eauto.
Qed.

Lemma filter_map_length {A B} (p : B -> bool) (f : A -> B) (l : list A) :
  List.length (filter p (map f l)) = List.length (filter (fun a => p (f a)) l).
Proof.
  induction l as [|a l IH]; simpl; [reflexivity|].
  destruct (p (f a)); simpl; now rewrite IH.
Qed.

Lemma size_of_known (c ty : string) (g : list (string * string * nat)) :
  size_of c ty (filter (fun e => negb (String.eqb (fst (fst e)) "Unknown")) g)
  = if String.eqb c "Unknown" then 0 else size_of c ty g.
Proof.
  induction g as [|[[a b] n] g IH]; simpl.
  - destruct (String.eqb c "Unknown"); reflexivity.
  - destruct (String.eqb a "Unknown") eqn:Ea; simpl.
    + rewrite IH, size_of_cons. simpl.
      destruct (String.eqb c "Unknown") eqn:Ec; [reflexivity|].
      destruct (String.eqb a c) eqn:Eac; [|reflexivity].
      apply String.eqb_eq in Eac. subst. congruence.
    + rewrite !size_of_cons, IH. simpl.
      destruct (String.eqb c "Unknown") eqn:Ec; [|reflexivity].
      destruct (String.eqb a c) eqn:Eac; [|reflexivity].
      apply String.eqb_eq in Eac. subst. congruence.
Qed.

Section GeographyFacts.
Context {P : Parsers}.

Lemma first_country_cells (t : list row) :
  first_country t = map (fun r => option_map first_piece (country r)) t.
Proof.
  unfold first_country, Pd.str_strip, Pd.str_first, Pd.str_split.
  rewrite !map_map. apply map_ext. intros r.
  destruct (country r) as [v|]; simpl; [|reflexivity].
  unfold first_piece. destruct (split_cons "," v) as (p & ps & ->). reflexivity.
Qed.

Lemma country_df_keys (t : list row) :
  map (fun r => (country r, type r)) (Pd.assign with_country t (first_country t))
  = map (fun r => (option_map first_piece (country r), type r)) t.
Proof.
  rewrite first_country_cells, assign_map_same, map_map. reflexivity.
Qed.

Lemma in_group_key (c ty : string) (r : row) :
  in_group c ty (option_map first_piece (country r), type r)
  = match group_key r with
    | Some k => String.eqb (fst k) c && String.eqb (snd k) ty
    | None => false
    end.
Proof.
  unfold group_key. destruct (country r), (type r); reflexivity.
Qed.

Lemma grouping_facts (t : list row) :
  let g := Pd.groupby_size (map (fun r => (country r, type r))
                               (Pd.assign with_country t (first_country t))) in
  StronglySorted before g
  /\ Forall (fun e => 0 < snd e) g
  /\ forall c ty, size_of c ty g = rows_in_group c ty t.
Proof.
  intros g. subst g. rewrite country_df_keys. unfold Pd.groupby_size.
  destruct (groupby_fold (map (fun r => (option_map first_piece (country r), type r)) t) [])
    as (H1 & H2 & H3).
  split; [apply H1; constructor|]. split; [apply H2; constructor|].
  intros c ty. rewrite H3. unfold size_of at 1. simpl.
  rewrite filter_map_length. unfold rows_in_group. f_equal.
  apply filter_ext. intros r. apply in_group_key.
Qed.

Lemma grouping_size (t : list row) (c ty : string) :
  size_of c ty (groupByCountryAndType t)
  = if String.eqb c "Unknown" then 0 else rows_in_group c ty t.
Proof.
  unfold groupByCountryAndType, country_count. rewrite size_of_known.
  destruct (grouping_facts t) as (_ & _ & H). now rewrite H.
Qed.


End GeographyFacts.

(** ** Rankings *)

Lemma count_of_cons (l : string) (e : string * nat) (t : list (string * nat)) :
  count_of l (e :: t) = (if String.eqb (fst e) l then snd e else 0) + count_of l t.
Proof. unfold count_of. simpl. destruct (String.eqb (fst e) l); reflexivity. Qed.

Lemma bump_count (l k : string) (t : list (string * nat)) :
  count_of l (Pd.bump k t) = count_of l t + (if String.eqb k l then 1 else 0).
Proof.
  induction t as [|[k' n] t IH]; simpl.
  - rewrite count_of_cons. simpl. unfold count_of. simpl. lia.
  - destruct (String.eqb k k') eqn:E.
    + apply String.eqb_eq in E. subst k'. rewrite !count_of_cons. simpl.
      destruct (String.eqb k l); lia.
    + rewrite !count_of_cons, IH. simpl. lia.
Qed.

Lemma bump_keys (k : string) (t : list (string * nat)) :
  (In k (map fst t) -> map fst (Pd.bump k t) = map fst t)
  /\ (~ In k (map fst t) -> map fst (Pd.bump k t) = map fst t ++ [k]).
Proof.
  induction t as [|[k' n] t [IH1 IH2]]; simpl.
  - split; [contradiction|reflexivity].
  - destruct (String.eqb k k') eqn:E; simpl.
    + apply String.eqb_eq in E. subst. split; [reflexivity|]. intros H. exfalso. auto.
    + apply String.eqb_neq in E. split.
      * intros [H|H]; [congruence|]. now rewrite IH1.
      * intros H. rewrite IH2; auto.
Qed.

Lemma bump_nodup (k : string) (t : list (string * nat)) :
  NoDup (map fst t) -> NoDup (map fst (Pd.bump k t)).
Proof.
  intros H. destruct (in_dec string_dec k (map fst t)) as [Hin|Hin].
  - now rewrite (proj1 (bump_keys k t) Hin).
  - rewrite (proj2 (bump_keys k t) Hin).
    apply NoDup_rev in H. rewrite <- (rev_involutive (map fst t ++ [k])).
    apply NoDup_rev. rewrite rev_app_distr. simpl. constructor; [|assumption].
    now rewrite <- in_rev.
Qed.

Lemma bump_positive (k : string) (t : list (string * nat)) :
  Forall (fun e => 0 < snd e) t -> Forall (fun e => 0 < snd e) (Pd.bump k t).
Proof.
  intros H. induction H as [|[k' n] t Hn H IH]; simpl.
  - constructor; [simpl; lia|constructor].
  - destruct (String.eqb k k'); constructor; simpl in *; auto; lia.
Qed.

Lemma tally_fold (s : Pd.Series string) (acc : list (string * nat)) :
  let t := fold_left (fun t x => match x with Some k => Pd.bump k t | None => t end) s acc in
  (NoDup (map fst acc) -> NoDup (map fst t))
  /\ (Forall (fun e => 0 < snd e) acc -> Forall (fun e => 0 < snd e) t)
  /\ forall l, count_of l t = count_of l acc + List.length (filter (labelled l) s).
Proof.
  revert acc. induction s as [|[k|] s IH]; intros acc; simpl.
  - repeat split; auto.
  - destruct (IH (Pd.bump k acc)) as (H1 & H2 & H3). repeat split.
    + intros H. apply H1. now apply bump_nodup.
    + intros H. apply H2. now apply bump_positive.
    + intros l. rewrite H3, bump_count. destruct (String.eqb k l); simpl; lia.
  - apply IH.
Qed.

Lemma insert_desc_perm (e : string * nat) (t : list (string * nat)) :
  Permutation (Pd.insert_desc e t) (e :: t).
Proof.
  induction t as [|h t IH]; simpl; [reflexivity|].
  destruct (Nat.ltb (snd e) (snd h)); [|reflexivity].
  rewrite IH. apply perm_swap.
Qed.

Lemma sort_desc_perm (t : list (string * nat)) : Permutation (Pd.sort_desc t) t.
Proof.
  induction t as [|e t IH]; simpl; [reflexivity|].
  rewrite insert_desc_perm. now constructor.
Qed.

Lemma insert_desc_sorted (e : string * nat) (t : list (string * nat)) :
  StronglySorted ranked t -> StronglySorted ranked (Pd.insert_desc e t).
Proof.
  intros H. induction H as [|h t H IH Hall]; simpl.
  - constructor; constructor.
  - destruct (Nat.ltb_spec (snd e) (snd h)) as [Hlt|Hge].
    + constructor; [assumption|].
      eapply Permutation_Forall; [symmetry; apply insert_desc_perm|].
      constructor; [unfold ranked; lia|assumption].
    + constructor; [now constructor|].
      constructor; [exact Hge|].
      eapply Forall_impl; [|exact Hall]. unfold ranked. intros a Ha. lia.
Qed.

Lemma sort_desc_sorted (t : list (string * nat)) : StronglySorted ranked (Pd.sort_desc t).
Proof.
  induction t as [|e t IH]; simpl; [constructor|]. now apply insert_desc_sorted.
Qed.

Lemma count_of_perm (l : string) (t u : list (string * nat)) :
  Permutation t u -> count_of l t = count_of l u.
Proof.
  intros H. induction H as [|e t u H IH|a b t|t u v H1 IH1 H2 IH2].
  - reflexivity.
  - now rewrite !count_of_cons, IH.
  - rewrite !count_of_cons. lia.
  - congruence.
Qed.

Lemma nodup_count (t : list (string * nat)) (l : string) (n : nat) :
  NoDup (map fst t) -> In (l, n) t -> count_of l t = n.
Proof.
  induction t as [|[k m] t IH]; intros Hnd Hin; [contradiction|].
  simpl in Hnd. inversion Hnd as [|? ? Hk Hnd']; subst.
  rewrite count_of_cons. simpl. destruct Hin as [E|Hin].
  - injection E as -> ->. rewrite String.eqb_refl.
    assert (H0 : count_of l t = 0).
    { clear IH Hnd Hnd'. induction t as [|[k m] t IH]; [reflexivity|].
      rewrite count_of_cons. simpl in *.
      destruct (String.eqb k l) eqn:E; [apply String.eqb_eq in E; tauto|].
      apply IH. tauto. }
    lia.
  - rewrite (IH Hnd' Hin). destruct (String.eqb k l) eqn:E; [|reflexivity].
    apply String.eqb_eq in E. subst. exfalso. apply Hk.
    change l with (fst (l, n)). now apply in_map.
Qed.

Lemma count_positive_in (t : list (string * nat)) (l : string) :
  0 < count_of l t -> exists n, In (l, n) t.
Proof.
  induction t as [|[k m] t IH]; [unfold count_of; simpl; lia|].
  rewrite count_of_cons. simpl. destruct (String.eqb k l) eqn:E.
  - apply String.eqb_eq in E. subst. intros _. exists m. now left.
  - intros H. destruct IH as [n Hn]; [lia|]. exists n. now right.
Qed.

Lemma value_counts_facts (s : Pd.Series string) :
  NoDup (map fst (Pd.value_counts s))
  /\ Forall (fun e => 0 < snd e) (Pd.value_counts s)
  /\ StronglySorted ranked (Pd.value_counts s)
  /\ forall l, count_of l (Pd.value_counts s) = List.length (filter (labelled l) s).
Proof.
  unfold Pd.value_counts. destruct (tally_fold s []) as (H1 & H2 & H3).
  pose proof (sort_desc_perm (Pd.tally s)) as Hp.
  repeat split.
  - eapply Permutation_NoDup; [apply Permutation_map; symmetry; exact Hp|].
    apply H1. constructor.
  - eapply Permutation_Forall; [symmetry; exact Hp|]. apply H2. constructor.
  - apply sort_desc_sorted.
  - intros l. rewrite (count_of_perm l _ _ Hp). unfold Pd.tally. rewrite H3. reflexivity.
Qed.

Lemma value_counts_in (s : Pd.Series string) (l : string) (n : nat) :
  In (l, n) (Pd.value_counts s)
  <-> n = List.length (filter (labelled l) s) /\ 0 < n.
Proof.
  destruct (value_counts_facts s) as (Hnd & Hpos & _ & Hc). split.
  - intros Hin. split.
    + rewrite <- Hc. symmetry. now apply nodup_count.
    + rewrite Forall_forall in Hpos. apply (Hpos _ Hin).
  - intros [-> Hn]. rewrite <- Hc in Hn. destruct (count_positive_in _ _ Hn) as [m Hm].
    rewrite <- Hc. now rewrite (nodup_count _ _ _ Hnd Hm).
Qed.

(** ** Labels *)

Lemma split_length (sep : ascii) (v : string) :
  List.length (Py.split sep v) = S (occurrences sep v).
Proof.
  induction v as [|c v IH]; simpl; [reflexivity|].
  destruct (Ascii.eqb c sep); simpl; [now rewrite IH|].
  destruct (Py.split sep v); simpl in *; lia.
Qed.

Lemma labels_pieces (s : Pd.Series string) :
  labels (Pd.dropna s) = map Some (flat_map pieces s).
Proof.
  unfold labels, Pd.str_strip, Pd.str_split, Pd.explode, Pd.dropna.
  induction s as [|[v|] s IH]; cbn [filter Pd.present map option_map flat_map] in *;
    [reflexivity| |exact IH].
  rewrite !map_app, IH. f_equal.
  unfold pieces. destruct (split_cons "," v) as (p & ps & ->).
  cbn [map option_map]. now rewrite !map_map.
Qed.

Lemma labelled_count (l : string) (ps : list string) :
  List.length (filter (labelled l) (map Some ps)) = count_occ string_dec ps l.
Proof.
  induction ps as [|p ps IH]; simpl; [reflexivity|].
  destruct (string_dec p l) as [->|Hne].
  - rewrite String.eqb_refl. simpl. now rewrite IH.
  - apply String.eqb_neq in Hne. now rewrite Hne.
Qed.

Lemma ranking_count (s : Pd.Series string) (l : string) :
  count_of l (Pd.value_counts (labels (Pd.dropna s)))
  = count_occ string_dec (flat_map pieces s) l.
Proof.
  destruct (value_counts_facts (labels (Pd.dropna s))) as (_ & _ & _ & H).
  now rewrite H, labels_pieces, labelled_count.
Qed.

Lemma count_occ_middle (l1 l2 m : list string) (x : string) :
  count_occ string_dec (l1 ++ m ++ l2) x
  = count_occ string_dec (l1 ++ l2) x + count_occ string_dec m x.
Proof. rewrite !count_occ_app. lia. Qed.

Section RankingFacts.
Context {P : Parsers}.

Lemma rows_in_group_app (c ty : string) (t u : list row) :
  rows_in_group c ty (t ++ u) = rows_in_group c ty t + rows_in_group c ty u.
Proof. unfold rows_in_group. now rewrite filter_app, length_app. Qed.

(** C10. Splitting on commas discards nothing: a cell has one piece more
    than it has commas, every trimmed piece of every present cell is a
    label, the empty one too, and the ranking lists each label once with
    its number of occurrences, by decreasing count.  The cell ["Drama,"]
    gives the labels ["Drama"] and the empty string, one count each. *)
Theorem C10_empty_pieces_are_labels (s : Pd.Series string) :
  (forall t, genres t
             = inr (Pd.head 10 (Pd.value_counts (labels (Pd.dropna (map listed_in t))))))
  /\ (forall t, countries t
                = inr (Pd.head 10 (Pd.value_counts (labels (Pd.dropna (map country t))))))
  /\ (forall v, List.length (Py.split "," v) = S (occurrences "," v))
  /\ labels (Pd.dropna s) = map Some (flat_map pieces s)
  /\ (forall l n,
         In (l, n) (Pd.value_counts (labels (Pd.dropna s)))
         <-> n = count_occ string_dec (flat_map pieces s) l /\ 0 < n)
  /\ StronglySorted ranked (Pd.value_counts (labels (Pd.dropna s)))
  /\ pieces (Some "Drama,") = ["Drama"; EmptyString]
  /\ topN [entry (P := P) None None (Some "Drama,") 0] col_listed_in 10
     = inr [("Drama", 1); (EmptyString, 1)].
Proof.
  split; [reflexivity|]. split; [reflexivity|].
  split; [intros v; apply split_length|].
  split; [apply labels_pieces|].
  split; [|split; [apply value_counts_facts|split; reflexivity]].
  intros l n. rewrite value_counts_in, labels_pieces, labelled_count. reflexivity.
Qed.


(** C4, as the code has it.  For a table of two rows, the first of
    country ["France, Belgium"] and type ["Movie"], the second of country
    ["Unknown"] and type ["TV Show"], the geography grouping is the one
    group of France: Belgium, which is not the first country of its row,
    has no group, and the second row is in no group. *)
Theorem C4_france_only (a b : row) :
  country a = Some "France, Belgium" -> type a = Some "Movie" ->
  country b = Some "Unknown" -> type b = Some "TV Show" ->
  groupByCountryAndType [a; b] = [("France", "Movie", 1)].
Proof.
  intros Ha1 Ha2 Hb1 Hb2.
  unfold groupByCountryAndType, country_count. rewrite country_df_keys.
  simpl map. rewrite Ha1, Ha2, Hb1, Hb2. reflexivity.
Qed.


End RankingFacts.

(** ** The views and the shared table *)

Section FrameFacts.
Context {P : Parsers}.

Lemma store_length (l : ref) (v : list row) (h : heap) :
  List.length (store l v h) = List.length h.
Proof.
  revert l; induction h as [|x h IH]; intros [|l]; simpl; auto.
Qed.

Lemma store_other (l l' : ref) (v : list row) (h : heap) :
  l <> l' -> nth l (store l' v h) [] = nth l h [].
Proof.
  revert l l'; induction h as [|x h IH]; intros [|l] [|l'] H; simpl; auto.
  congruence.
Qed.

Lemma store_same (l : ref) (v : list row) (h : heap) :
  l < List.length h -> nth l (store l v h) [] = v.
Proof.
  revert l; induction h as [|x h IH]; intros [|l] H; simpl in *; try lia; auto.
  apply IH. lia.
Qed.

(** C9. Whatever the choice, running its view leaves every DataFrame
    that existed before as it was, the cleaned table [df] among them:
    thirteen views only read [df], and the geography view writes its
    country column to the copy it allocated.  That view shows the
    grouping of the table [df] holds. *)
Theorem C9_views_leave_table (c : choice) (h : heap) :
  df < List.length h ->
  (forall l, l < List.length h -> nth l (snd (view c h)) [] = nth l h [])
  /\ fst (view GlobalDistribution h)
     = inr (Groups (groupByCountryAndType (nth df h []))).
Proof.
  intros Hdf. split.
  - intros l Hl. destruct c; try reflexivity;
      try (unfold view, bind, deref, raise_or, genres, countries, actors, directors;
           match goal with
           | |- context [match ?x with inl _ => _ | inr _ => _ end] => destruct x
           end; reflexivity).
    unfold view, bind, deref, copy, setitem_country, ret. simpl snd.
    rewrite store_other by lia. now apply app_nth1.
  - unfold view, bind, deref, copy, setitem_country, ret. simpl fst.
    rewrite store_same by (rewrite length_app; simpl; lia).
    rewrite !nth_middle. reflexivity.
Qed.

End FrameFacts.

(** ** Sums of rationals *)






(** ** The squared deviations of one column *)









(** ** Complete observations *)





(** ** The coefficient *)

Lemma same_refl (c : option Corr.coefficient) : Corr.same c c.
Proof. destruct c; simpl; [split; reflexivity|exact I]. Qed.








Section CorrelationFacts.
Context {P : Parsers}.


End CorrelationFacts.

(** ** The statements on the sample table *)




Lemma C4_france_only_witness :
  country (row_A (P := sample_parsers)) = Some "France, Belgium"
  /\ type (row_A (P := sample_parsers)) = Some "Movie"
  /\ country (row_B (P := sample_parsers)) = Some "Unknown"
  /\ type (row_B (P := sample_parsers)) = Some "TV Show"
  /\ groupByCountryAndType [row_A (P := sample_parsers); row_B] = [("France", "Movie", 1)].
Proof.
  do 4 (split; [reflexivity|]).
  apply (C4_france_only (P := sample_parsers) row_A row_B); reflexivity.
Defined.

(** The grouping of the two rows of the example is not the two groups of
    Belgium and France. *)
Lemma C4_belgium_counterexample :
  groupByCountryAndType [row_A (P := sample_parsers); row_B]
  <> [("Belgium", "Movie", 1); ("France", "Movie", 1)].
Proof. vm_compute. discriminate. Qed.





Lemma C9_views_leave_table_witness :
  df < List.length [[row_A (P := sample_parsers); row_B]]
  /\ nth df (snd (view GlobalDistribution [[row_A (P := sample_parsers); row_B]])) []
     = [row_A; row_B].
Proof.
  assert (H : df < List.length [[row_A (P := sample_parsers); row_B]])
    by (unfold df; simpl; lia).
  split; [exact H|].
  exact (proj1 (C9_views_leave_table GlobalDistribution
                  [[row_A (P := sample_parsers); row_B]] H) df H).
Defined.

Lemma C10_empty_pieces_are_labels_witness :
  In (EmptyString, 1) (Pd.value_counts (labels (Pd.dropna [Some "Drama,"; None; Some "Drama"]))).
Proof.
  apply (proj1 (proj2 (proj2 (proj2 (proj2 (C10_empty_pieces_are_labels
           (P := sample_parsers) [Some "Drama,"; None; Some "Drama"])))))).
  split; [reflexivity|lia].
Defined.

(** ** Examples *)

(** The cleaning block on three raw rows. *)
Example clean_three_rows :
  let t := clean (P := sample_parsers)
                 [raw_entry None (Some "2019") (Some "90 min");
                  raw_entry (Some "India") None (Some "3 Seasons");
                  raw_entry (Some "Japan, USA") (Some "soon") None] in
  map country t = [Some "Unknown"; Some "India"; Some "Japan, USA"]
  /\ map Float64.is_nan (map year_added t) = [false; true; true]
  /\ map duration_num t = [Float64.of_Z 90; Float64.of_Z 3; S754_nan].
Proof. repeat split. Qed.

(** [strip] removes the white space of both ends, a no-break space
    (bytes 194 160) and an em space (bytes 226 128 131) included, and none
    inside. *)
Example strip_unicode_spaces :
  Py.strip (String (ascii_of_nat 194) (String (ascii_of_nat 160)
             ("South Korea " ++
              String (ascii_of_nat 226) (String (ascii_of_nat 128)
                (String (ascii_of_nat 131) EmptyString)))))
  = "South Korea".
Proof. reflexivity. Qed.

(** The ranking of the spec's example: ["Drama, Comedy"] on three rows
    and ["Drama"] on one. *)
Example genres_of_four_rows :
  topN [entry (P := sample_parsers) None None (Some "Drama, Comedy") 0;
        entry None None (Some "Drama, Comedy") 0;
        entry None None (Some "Drama, Comedy") 0;
        entry None None (Some "Drama") 0] col_listed_in 2
  = inr [("Drama", 4); ("Comedy", 3)].
Proof. reflexivity. Qed.

(** * Further properties *)

(** ** Rankings: what the first [n] entries are *)

Lemma sorted_app_ranked (a b : list (string * nat)) :
  StronglySorted ranked (a ++ b) ->
  forall x y, In x a -> In y b -> ranked x y.
Proof.
  induction a as [|h a IH]; intros Hs x y Hx Hy; [contradiction|].
  simpl in Hs. inversion Hs as [|? ? Hs' Hall]; subst.
  destruct Hx as [<-|Hx].
  - rewrite Forall_forall in Hall. apply Hall. apply in_or_app. now right.
  - now apply IH.
Qed.

Lemma in_firstn {A} (n : nat) (l : list A) (x : A) : In x (firstn n l) -> In x l.
Proof.
  intros H. rewrite <- (firstn_skipn n l). apply in_or_app. now left.
Qed.

Lemma sorted_firstn (n : nat) (t : list (string * nat)) :
  StronglySorted ranked t -> StronglySorted ranked (firstn n t).
Proof.
  intros Hs. revert n. induction Hs as [|h t Hs IH Hall]; intros [|n]; simpl;
    try constructor.
  - apply IH.
  - rewrite Forall_forall in *. intros x Hx. apply Hall. eapply in_firstn; eauto.
Qed.

Lemma nodup_firstn {A} (n : nat) (l : list A) : NoDup l -> NoDup (firstn n l).
Proof.
  intros H. rewrite <- (firstn_skipn n l) in H. eapply NoDup_app_remove_r. exact H.
Qed.

Lemma head_value_counts (s : Pd.Series string) (n : nat) :
  let g := Pd.head n (Pd.value_counts s) in
  List.length g <= n
  /\ NoDup (map fst g)
  /\ StronglySorted ranked g
  /\ (forall l k, In (l, k) g -> k = cells_equal l s /\ 0 < k)
  /\ (forall l k l', In (l, k) g -> ~ In l' (map fst g) -> cells_equal l' s <= k).
Proof.
  intros g. subst g. unfold Pd.head.
  destruct (value_counts_facts s) as (Hnd & Hpos & Hs & Hc).
  split; [apply firstn_le_length|].
  split; [rewrite <- firstn_map; now apply nodup_firstn|].
  split; [now apply sorted_firstn|].
  split.
  - intros l k Hin. apply in_firstn in Hin. now apply value_counts_in in Hin.
  - intros l k l' Hin Hout.
    destruct (Nat.eq_dec (cells_equal l' s) 0) as [E|E]; [lia|].
    assert (Hin' : In (l', cells_equal l' s) (Pd.value_counts s)).
    { apply value_counts_in. unfold cells_equal in *. split; [reflexivity|lia]. }
    rewrite <- (firstn_skipn n (Pd.value_counts s)) in Hin', Hs.
    apply in_app_or in Hin'. destruct Hin' as [Hf|Hsk].
    + exfalso. apply Hout. change l' with (fst (l', cells_equal l' s)). now apply in_map.
    + apply (sorted_app_ranked _ _ Hs _ _ Hin Hsk).
Qed.


Section RankingMore.
Context {P : Parsers}.



(** X2. The ratings view lists at most ten ratings with distinct labels,
    by decreasing count; the count of a listed rating is the number of
    rows whose rating cell is exactly that string, rows without a rating
    are counted nowhere, and no rating left out is more frequent than a
    listed one. *)
Theorem ratings_lists_the_most_frequent (t : list row) :
  List.length (ratings t) <= 10
  /\ NoDup (map fst (ratings t))
  /\ StronglySorted ranked (ratings t)
  /\ (forall l k, In (l, k) (ratings t) ->
        k = List.length (filter (fun r => labelled l (rating r)) t) /\ 0 < k)
  /\ (forall l k l', In (l, k) (ratings t) -> ~ In l' (map fst (ratings t)) ->
        List.length (filter (fun r => labelled l' (rating r)) t) <= k).
Proof.
  assert (E : forall l, cells_equal l (map rating t)
                        = List.length (filter (fun r => labelled l (rating r)) t)).
  { intros l. unfold cells_equal. apply filter_map_length. }
  destruct (head_value_counts (map rating t) 10) as (H1 & H2 & H3 & H4 & H5).
  unfold ratings. repeat split; auto.
  - rewrite <- E. apply (H4 l k H).
  - apply (H4 l k H).
  - intros l k l' Hin Hout. rewrite <- E. eapply H5; eauto.
Qed.

End RankingMore.

(** ** Rankings: totals and one more cell *)

Lemma total_cons (e : string * nat) (t : list (string * nat)) :
  total (e :: t) = snd e + total t.
Proof. reflexivity. Qed.

Lemma bump_total (k : string) (t : list (string * nat)) :
  total (Pd.bump k t) = S (total t).
Proof.
  induction t as [|[k' n] t IH]; simpl; [reflexivity|].
  destruct (String.eqb k k'); rewrite !total_cons; simpl; [lia|]. rewrite IH. lia.
Qed.

Lemma tally_total (s : Pd.Series string) (acc : list (string * nat)) :
  total (fold_left (fun t x => match x with Some k => Pd.bump k t | None => t end) s acc)
  = total acc + List.length (filter Pd.present s).
Proof.
  revert acc. induction s as [|[k|] s IH]; intros acc; simpl; [lia| |apply IH].
  rewrite IH, bump_total. lia.
Qed.

Lemma total_perm (t u : list (string * nat)) : Permutation t u -> total t = total u.
Proof.
  intros H. unfold total. apply Permutation_map with (f := snd) in H.
  induction H; simpl; lia.
Qed.

Lemma value_counts_total (s : Pd.Series string) :
  total (Pd.value_counts s) = List.length (filter Pd.present s).
Proof.
  unfold Pd.value_counts. rewrite (total_perm _ _ (sort_desc_perm _)).
  unfold Pd.tally. now rewrite tally_total.
Qed.

Lemma pieces_length (x : option string) : List.length (pieces x) = piece_count x.
Proof. destruct x as [v|]; simpl; [|reflexivity]. now rewrite length_map, split_length. Qed.

Lemma flat_map_length {A B} (f : A -> list B) (l : list A) :
  List.length (flat_map f l) = list_sum (map (fun a => List.length (f a)) l).
Proof. induction l as [|a l IH]; simpl; [reflexivity|]. now rewrite length_app, IH. Qed.

Lemma filter_present_some {A} (l : list A) : filter Pd.present (map Some l) = map Some l.
Proof. induction l as [|a l IH]; simpl; [reflexivity|]. now rewrite IH. Qed.

(** X3. The counts of a ranking add up to the number of pieces: every
    present cell gives one count more than it has commas, a missing cell
    none.  Without splitting, the counts add up to the number of present
    cells. *)
Theorem ranking_counts_every_piece (s : Pd.Series string) :
  total (Pd.value_counts (labels (Pd.dropna s))) = list_sum (map piece_count s)
  /\ total (Pd.value_counts s) = List.length (filter Pd.present s).
Proof.
  split; [|apply value_counts_total].
  rewrite value_counts_total, labels_pieces, filter_present_some, length_map.
  rewrite flat_map_length. f_equal. apply map_ext. intros x. apply pieces_length.
Qed.

(** X4. One more cell anywhere in a column adds to the count of each
    label the number of its trimmed pieces equal to that label: a label
    written twice in the cell is counted twice, and a missing cell changes
    no count. *)
Theorem ranking_of_one_more_cell (s1 s2 : Pd.Series string) (x : option string) (l : string) :
  count_of l (Pd.value_counts (labels (Pd.dropna (s1 ++ x :: s2))))
  = count_of l (Pd.value_counts (labels (Pd.dropna (s1 ++ s2))))
    + count_occ string_dec (pieces x) l.
Proof.
  rewrite !ranking_count, !flat_map_app. cbn [flat_map].
  apply count_occ_middle.
Qed.

(** ** The geography grouping: one more row, row order, raw rows *)

Lemma sorted_ext (g g' : list (string * string * nat)) :
  StronglySorted before g -> StronglySorted before g' ->
  Forall (fun e => 0 < snd e) g -> Forall (fun e => 0 < snd e) g' ->
  (forall c ty, size_of c ty g = size_of c ty g') -> g = g'.
Proof.
  intros Hs. revert g'. induction Hs as [|[[c ty] n] g Hs IH Hall];
    intros g' Hs' Hp Hp' Hsz.
  - destruct g' as [|[[c ty] n] g']; [reflexivity|]. exfalso.
    specialize (Hsz c ty). rewrite size_of_cons in Hsz. simpl in Hsz.
    rewrite !String.eqb_refl in Hsz. simpl in Hsz.
    inversion Hp' as [|? ? Hn _]; subst. simpl in Hn.
    unfold size_of in Hsz at 1. simpl in Hsz. lia.
  - destruct g' as [|[[c' ty'] n'] g'].
    + exfalso. specialize (Hsz c ty). rewrite size_of_cons in Hsz. simpl in Hsz.
      rewrite !String.eqb_refl in Hsz. simpl in Hsz.
      inversion Hp as [|? ? Hn _]; subst. simpl in Hn.
      unfold size_of in Hsz at 2. simpl in Hsz. lia.
    + inversion Hs' as [|? ? Hs'' Hall']; subst.
      inversion Hp as [|? ? Hn Hpt]; subst. inversion Hp' as [|? ? Hn' Hpt']; subst.
      simpl in Hn, Hn'.
      assert (Hin : In (c, ty, n) ((c', ty', n') :: g')).
      { destruct (size_positive_in ((c', ty', n') :: g') c ty) as [m Hm].
        - rewrite <- Hsz. rewrite (sorted_size _ c ty n); [lia| |now left].
          now constructor.
        - assert (m = n); [|now subst].
          rewrite <- (sorted_size _ _ _ _ Hs' Hm), <- Hsz.
          apply sorted_size; [now constructor|now left]. }
      assert (Hin' : In (c', ty', n') ((c, ty, n) :: g)).
      { destruct (size_positive_in ((c, ty, n) :: g) c' ty') as [m Hm].
        - rewrite Hsz. rewrite (sorted_size _ c' ty' n'); [lia|exact Hs'|now left].
        - assert (m = n'); [|now subst].
          rewrite <- (sorted_size _ _ _ _ (SSorted_cons _ Hs Hall) Hm), Hsz.
          apply sorted_size; [exact Hs'|now left]. }
      assert (E : (c, ty, n) = (c', ty', n')).
      { destruct Hin as [E|Hin]; [now symmetry|].
        destruct Hin' as [E|Hin']; [exact E|]. exfalso.
        rewrite Forall_forall in Hall, Hall'.
        pose proof (before_trans _ _ _ (Hall _ Hin') (Hall' _ Hin)) as Hb.
        now apply before_differ in Hb. }
      injection E as <- <- <-. f_equal. apply IH; auto.
      intros c0 ty0. specialize (Hsz c0 ty0). rewrite !size_of_cons in Hsz.
      simpl in Hsz.
      destruct (String.eqb c c0 && String.eqb ty ty0) eqn:Ek; [|exact Hsz].
      lia.
Qed.

Section GeographyMore.
Context {P : Parsers}.

Lemma rows_in_group_one (c ty : string) (r : row) :
  rows_in_group c ty [r] = if is_group c ty (group_key r) then 1 else 0.
Proof.
  unfold rows_in_group, is_group. cbn [filter].
  destruct (group_key r) as [k|]; [|reflexivity].
  destruct (String.eqb (fst k) c && String.eqb (snd k) ty); reflexivity.
Qed.

(** X5. One more row anywhere in the table adds one to the size of the
    group of its trimmed first country and its type, when it has both and
    the country is not ["Unknown"], and changes the size of no other
    group; a row without a type or of first country ["Unknown"] changes
    nothing. *)
Theorem grouping_of_one_more_row (t1 t2 : list row) (r : row) (c ty : string) :
  size_of c ty (groupByCountryAndType (t1 ++ r :: t2))
  = size_of c ty (groupByCountryAndType (t1 ++ t2))
    + (if is_group c ty (group_key r) && negb (String.eqb c "Unknown") then 1 else 0).
Proof.
  rewrite !grouping_size. destruct (String.eqb c "Unknown").
  - rewrite andb_false_r. reflexivity.
  - rewrite andb_true_r, !rows_in_group_app. change (r :: t2) with ([r] ++ t2).
    rewrite rows_in_group_app, rows_in_group_one. lia.
Qed.

Lemma rows_in_group_perm (c ty : string) (t u : list row) :
  Permutation t u -> rows_in_group c ty t = rows_in_group c ty u.
Proof.
  intros H. unfold rows_in_group. induction H; simpl.
  - reflexivity.
  - destruct (group_key x) as [k|]; [|exact IHPermutation].
    destruct (String.eqb (fst k) c && String.eqb (snd k) ty); simpl; now rewrite ?IHPermutation.
  - destruct (group_key x) as [k|], (group_key y) as [k'|]; try reflexivity;
      repeat match goal with |- context [if ?b then _ else _] => destruct b end; reflexivity.
  - congruence.
Qed.

Lemma grouping_canonical (t : list row) :
  StronglySorted before (groupByCountryAndType t)
  /\ Forall (fun e => 0 < snd e) (groupByCountryAndType t).
Proof.
  destruct (grouping_facts t) as (Hs & Hp & _).
  unfold groupByCountryAndType, country_count. split; [now apply sorted_filter|].
  rewrite Forall_forall in *. intros x Hx. apply filter_In in Hx. now apply Hp.
Qed.

(** X6. The geography grouping does not depend on the order of the rows:
    two tables with the same rows in any order give the same groups, with
    the same sizes, in the same order. *)
Theorem grouping_ignores_row_order (t u : list row) :
  Permutation t u -> groupByCountryAndType t = groupByCountryAndType u.
Proof.
  intros H. destruct (grouping_canonical t) as [Hs Hp].
  destruct (grouping_canonical u) as [Hs' Hp'].
  apply sorted_ext; auto. intros c ty. rewrite !grouping_size.
  now rewrite (rows_in_group_perm c ty t u H).
Qed.

Lemma clean_group_keys (raw : list Raw.row) :
  map group_key (clean raw) = map raw_group_key raw.
Proof.
  unfold clean. apply assign_map_indep. intros r d.
  unfold group_key, raw_group_key. simpl.
  destruct (Raw.country r), (Raw.type r); reflexivity.
Qed.

(** X7. From the raw table to the map: the size of a group of the cleaned
    table is the number of raw rows that have a type equal to the group's
    and whose country, read ["Unknown"] when missing, has the group's
    country as its trimmed first piece; so a raw row without a country is
    in no group of the map, and neither is a row without a type. *)
Theorem grouping_of_raw_rows (raw : list Raw.row) (c ty : string) :
  size_of c ty (groupByCountryAndType (clean raw))
  = if String.eqb c "Unknown" then 0
    else List.length (filter (fun r => is_group c ty (raw_group_key r)) raw).
Proof.
  rewrite grouping_size. destruct (String.eqb c "Unknown"); [reflexivity|].
  unfold rows_in_group.
  rewrite <- (filter_map_length (is_group c ty) raw_group_key raw).
  rewrite <- clean_group_keys, filter_map_length. reflexivity.
Qed.

End GeographyMore.

(** ** The top-N pipelines on the cleaned table *)

Lemma dropna_filled (s : Pd.Series string) (v : string) :
  Pd.dropna (map (Pd.fillna v) s) = map (Pd.fillna v) s.
Proof.
  unfold Pd.dropna. induction s as [|[x|] s IH]; simpl; [reflexivity| |]; now rewrite IH.
Qed.

Lemma pieces_filled (s : Pd.Series string) (l : string) :
  count_occ string_dec (flat_map pieces (map (Pd.fillna "Unknown") s)) l
  = count_occ string_dec (flat_map pieces s) l
    + (if String.eqb l "Unknown"
       then List.length (filter (fun x => negb (Pd.present x)) s) else 0).
Proof.
  induction s as [|[x|] s IH]; cbn [map flat_map Pd.fillna filter Pd.present negb].
  - simpl. destruct (String.eqb l "Unknown"); reflexivity.
  - rewrite !count_occ_app, IH. lia.
  - change (pieces (Some "Unknown")) with ["Unknown"]. cbn [pieces app List.length].
    destruct (String.eqb l "Unknown") eqn:E.
    + apply String.eqb_eq in E. rewrite count_occ_cons_eq by (now symmetry). rewrite IH. lia.
    + apply String.eqb_neq in E. rewrite count_occ_cons_neq by congruence. rewrite IH.
      reflexivity.
Qed.

Section CleanedRankings.
Context {P : Parsers}.

(** X8. On the cleaned table the [dropna()] of the director, cast and
    country pipelines removes no row, and a raw row without a director
    counts once under the label ["Unknown"], like a row that names it:
    the count of a label is the number of its occurrences among the
    trimmed pieces of the raw cells, plus, for ["Unknown"], the number of
    raw rows where the cell is missing. *)
Theorem unknown_is_ranked (raw : list Raw.row) (l : string) :
  Pd.dropna (map director (clean raw)) = map director (clean raw)
  /\ Pd.dropna (map cast (clean raw)) = map cast (clean raw)
  /\ Pd.dropna (map country (clean raw)) = map country (clean raw)
  /\ count_of l (Pd.value_counts (labels (Pd.dropna (map director (clean raw)))))
     = count_occ string_dec (flat_map pieces (map Raw.director raw)) l
       + (if String.eqb l "Unknown"
          then List.length (filter (fun x => negb (Pd.present x)) (map Raw.director raw))
          else 0).
Proof.
  assert (Hd : map director (clean raw) = map (Pd.fillna "Unknown") (map Raw.director raw)).
  { rewrite map_map. apply clean_column. reflexivity. }
  assert (Hc : map cast (clean raw) = map (Pd.fillna "Unknown") (map Raw.cast raw)).
  { rewrite map_map. apply clean_column. reflexivity. }
  assert (Hk : map country (clean raw) = map (Pd.fillna "Unknown") (map Raw.country raw)).
  { rewrite map_map. apply clean_column. reflexivity. }
  rewrite Hd, Hc, Hk. repeat split; try apply dropna_filled.
  rewrite ranking_count. apply pieces_filled.
Qed.

End CleanedRankings.

(** ** The sign of the double of a whole number *)












(** ** The duration views on the cleaned table *)

Section DurationViews.
Context {P : Parsers}.





End DurationViews.

(** ** The missing-data mask of the cleaned table *)


Section MaskFacts.
Context {P : Parsers}.


End MaskFacts.

(** ** The copy the geography view makes *)

Section CopyFacts.
Context {P : Parsers}.



End CopyFacts.

(** ** Splitting and joining *)

Lemma split_join (sep : ascii) (s : string) :
  String.concat (String sep EmptyString) (Py.split sep s) = s.
Proof.
  induction s as [|c s IH]; [reflexivity|]. simpl Py.split.
  destruct (Ascii.eqb_spec c sep) as [->|Hne].
  - destruct (split_cons sep s) as (p & ps & E). rewrite E in *.
    change (String.concat (String sep EmptyString) (EmptyString :: p :: ps))
      with (String sep (String.concat (String sep EmptyString) (p :: ps))).
    now rewrite IH.
  - destruct (split_cons sep s) as (p & ps & E). rewrite E in *.
    destruct ps as [|q ps].
    + cbn [String.concat] in *. now rewrite IH.
    + change (String.concat (String sep EmptyString) (String c p :: q :: ps))
        with (String c (String.concat (String sep EmptyString) (p :: q :: ps))).
      now rewrite IH.
Qed.

Lemma split_no_sep (sep : ascii) (s : string) :
  Forall (fun p => occurrences sep p = 0) (Py.split sep s).
Proof.
  induction s as [|c s IH]; simpl; [repeat constructor|].
  destruct (Ascii.eqb c sep) eqn:E; [constructor; [reflexivity|exact IH]|].
  destruct (Py.split sep s) as [|p ps]; [repeat constructor; simpl; now rewrite E|].
  inversion IH; subst. constructor; [simpl; rewrite E; assumption|assumption].
Qed.

Lemma join_split (sep : ascii) (p : string) (ps : list string) :
  Forall (fun q => occurrences sep q = 0) (p :: ps) ->
  Py.split sep (String.concat (String sep EmptyString) (p :: ps)) = p :: ps.
Proof.
  revert p. induction ps as [|q ps IH]; intros p H.
  - inversion H as [|? ? Hp _]; subst. cbn [String.concat]. clear H.
    induction p as [|c p IHp]; [reflexivity|]. simpl in *.
    destruct (Ascii.eqb c sep); [discriminate|]. now rewrite IHp.
  - inversion H as [|? ? Hp Hq]; subst. specialize (IH q Hq).
    change (String.concat (String sep EmptyString) (p :: q :: ps))
      with (p ++ String sep (String.concat (String sep EmptyString) (q :: ps)))%string.
    clear H. induction p as [|c p IHp].
    + cbn [append Py.split]. rewrite Ascii.eqb_refl. now rewrite IH.
    + cbn [append Py.split]. cbn [occurrences] in Hp.
      destruct (Ascii.eqb c sep); [discriminate|]. now rewrite (IHp Hp).
Qed.

(** X13. Splitting at commas and joining with commas are inverse:
    joining the pieces of a string gives the string back, no piece holds
    a comma, and splitting the join of a non-empty list of comma-free
    pieces gives the list back, empty pieces included. *)
Theorem split_and_join (s : string) (p : string) (ps : list string) :
  String.concat "," (Py.split "," s) = s
  /\ Forall (fun q => occurrences "," q = 0) (Py.split "," s)
  /\ (Forall (fun q => occurrences "," q = 0) (p :: ps) ->
      Py.split "," (String.concat "," (p :: ps)) = p :: ps).
Proof.
  split; [apply (split_join ","%char)|]. split; [apply split_no_sep|].
  apply (join_split ","%char).
Qed.

(** ** Trimming *)

Section DropSpaces.
Variable s2 : ascii -> ascii -> bool.
Variable s3 : ascii -> ascii -> ascii -> bool.

Lemma drop_spaces_suffix_upto (n : nat) (l : list ascii) :
  List.length l <= n -> exists pre, l = pre ++ Py.drop_spaces s2 s3 l.
Proof.
  revert l. induction n as [|n IH]; intros l Hl.
  - destruct l; [exists []; reflexivity|simpl in Hl; lia].
  - destruct l as [|a l1]; [exists []; reflexivity|]. simpl in Hl. simpl.
    destruct (Py.space1 a).
    { destruct (IH l1 ltac:(lia)) as [pre E]. exists (a :: pre). simpl. now f_equal. }
    destruct l1 as [|b l2]; [exists []; reflexivity|]. simpl in Hl.
    destruct (s2 a b).
    { destruct (IH l2 ltac:(lia)) as [pre E]. exists (a :: b :: pre). simpl. now do 2 f_equal. }
    destruct l2 as [|c l3]; [exists []; reflexivity|]. simpl in Hl.
    destruct (s3 a b c); [|exists []; reflexivity].
    destruct (IH l3 ltac:(lia)) as [pre E]. exists (a :: b :: c :: pre). simpl. now do 3 f_equal.
Qed.

Lemma drop_spaces_suffix (l : list ascii) :
  exists pre, l = pre ++ Py.drop_spaces s2 s3 l.
Proof. now apply (drop_spaces_suffix_upto (List.length l)). Qed.

Lemma drop_spaces_clean_upto (n : nat) (l : list ascii) :
  List.length l <= n -> starts_clean s2 s3 (Py.drop_spaces s2 s3 l).
Proof.
  revert l. induction n as [|n IH]; intros l Hl.
  - destruct l; [exact I|simpl in Hl; lia].
  - destruct l as [|a l1]; [exact I|]. simpl in Hl. simpl.
    destruct (Py.space1 a) eqn:E1; [apply IH; lia|].
    destruct l1 as [|b l2]; [simpl; auto|]. simpl in Hl.
    destruct (s2 a b) eqn:E2; [apply IH; lia|].
    destruct l2 as [|c l3]; [simpl; auto|]. simpl in Hl.
    destruct (s3 a b c) eqn:E3; [apply IH; lia|]. simpl. auto.
Qed.

Lemma clean_fixed (l : list ascii) : starts_clean s2 s3 l -> Py.drop_spaces s2 s3 l = l.
Proof.
  destruct l as [|a [|b [|c l3]]]; simpl; [reflexivity| | |].
  - intros [-> _]. reflexivity.
  - intros (-> & -> & _). reflexivity.
  - intros (-> & -> & ->). reflexivity.
Qed.

Lemma drop_spaces_idem (l : list ascii) :
  Py.drop_spaces s2 s3 (Py.drop_spaces s2 s3 l) = Py.drop_spaces s2 s3 l.
Proof. apply clean_fixed. now apply (drop_spaces_clean_upto (List.length l)). Qed.

Lemma clean_prefix (p q : list ascii) : starts_clean s2 s3 (p ++ q) -> starts_clean s2 s3 p.
Proof.
  destruct p as [|a [|b [|c p3]]]; simpl; auto.
  - intros [H _]. auto.
  - intros (H1 & H2 & _). auto.
Qed.

End DropSpaces.

Lemma rstrip_prefix (l : list ascii) : exists q, l = Py.rstrip_bytes l ++ q.
Proof.
  unfold Py.rstrip_bytes.
  destruct (drop_spaces_suffix (fun a b => Py.space2 b a) (fun a b c => Py.space3 c b a)
              (rev l)) as [pre E].
  exists (rev pre). rewrite <- rev_app_distr, <- E. now rewrite rev_involutive.
Qed.

Lemma rstrip_idem (l : list ascii) : Py.rstrip_bytes (Py.rstrip_bytes l) = Py.rstrip_bytes l.
Proof. unfold Py.rstrip_bytes. now rewrite rev_involutive, drop_spaces_idem. Qed.

Lemma strip_bytes_idem (l : list ascii) :
  let strip := fun x => Py.rstrip_bytes (Py.lstrip_bytes x) in
  strip (strip l) = strip l.
Proof.
  simpl. assert (H : Py.lstrip_bytes (Py.rstrip_bytes (Py.lstrip_bytes l))
                     = Py.rstrip_bytes (Py.lstrip_bytes l)).
  { unfold Py.lstrip_bytes at 1. apply clean_fixed.
    destruct (rstrip_prefix (Py.lstrip_bytes l)) as [q E].
    apply (clean_prefix _ _ _ q). rewrite <- E. unfold Py.lstrip_bytes.
    now apply (drop_spaces_clean_upto _ _ (List.length l)). }
  rewrite H. apply rstrip_idem.
Qed.

Lemma strip_idem (s : string) : Py.strip (Py.strip s) = Py.strip s.
Proof.
  unfold Py.strip. rewrite list_ascii_of_string_of_list_ascii.
  f_equal. apply strip_bytes_idem.
Qed.

Lemma count_byte_app (c : ascii) (l m : list ascii) :
  count_byte c (l ++ m) = count_byte c l + count_byte c m.
Proof. induction l as [|a l IH]; simpl; [reflexivity|]. rewrite IH. lia. Qed.

Lemma occurrences_bytes (c : ascii) (s : string) :
  occurrences c s = count_byte c (list_ascii_of_string s).
Proof. induction s as [|a s IH]; simpl; [reflexivity|]. now rewrite IH. Qed.

Lemma strip_occurrences (c : ascii) (s : string) :
  occurrences c (Py.strip s) <= occurrences c s.
Proof.
  rewrite !occurrences_bytes. unfold Py.strip. rewrite list_ascii_of_string_of_list_ascii.
  destruct (drop_spaces_suffix Py.space2 Py.space3 (list_ascii_of_string s)) as [pre E].
  fold (Py.lstrip_bytes (list_ascii_of_string s)) in E.
  destruct (rstrip_prefix (Py.lstrip_bytes (list_ascii_of_string s))) as [q E'].
  rewrite E at 2. rewrite E' at 2. rewrite !count_byte_app. lia.
Qed.

Lemma piece_trimmed (v l : string) :
  In l (pieces (Some v)) -> Py.strip l = l /\ occurrences "," l = 0.
Proof.
  unfold pieces. intros H. apply in_map_iff in H. destruct H as (p & <- & Hp).
  split; [apply strip_idem|].
  pose proof (split_no_sep "," v) as Hall. rewrite Forall_forall in Hall.
  pose proof (strip_occurrences "," p). rewrite (Hall p Hp) in *. lia.
Qed.

Lemma first_piece_trimmed (v : string) :
  Py.strip (first_piece v) = first_piece v /\ occurrences "," (first_piece v) = 0.
Proof.
  apply (piece_trimmed v). unfold pieces, first_piece.
  destruct (split_cons "," v) as (p & ps & ->). now left.
Qed.

Section TrimmedLabels.
Context {P : Parsers}.

(** X14. Trimming twice is trimming once.  Every label of a ranking is
    trimmed and holds no comma, and so is the country of every group of
    the map. *)
Theorem labels_are_trimmed :
  (forall s, Py.strip (Py.strip s) = Py.strip s)
  /\ (forall (s : Pd.Series string) l k,
         In (l, k) (Pd.value_counts (labels (Pd.dropna s))) ->
         Py.strip l = l /\ occurrences "," l = 0)
  /\ (forall (t : list row) c ty n,
         In (c, ty, n) (groupByCountryAndType t) ->
         Py.strip c = c /\ occurrences "," c = 0).
Proof.
  split; [exact strip_idem|]. split.
  - intros s l k Hin. apply value_counts_in in Hin. destruct Hin as [-> Hk].
    rewrite labels_pieces, labelled_count in Hk.
    apply count_occ_In in Hk. apply in_flat_map in Hk. destruct Hk as ([v|] & _ & Hl).
    + now apply (piece_trimmed v).
    + contradiction.
  - intros t c ty n Hin. destruct (grouping_canonical t) as [Hs Hp].
    pose proof (sorted_size _ _ _ _ Hs Hin) as Hsz.
    rewrite Forall_forall in Hp. pose proof (Hp _ Hin) as Hn. simpl in Hn.
    rewrite grouping_size in Hsz. destruct (String.eqb c "Unknown"); [lia|].
    unfold rows_in_group in Hsz.
    destruct (filter _ t) as [|r rs] eqn:E; [simpl in Hsz; lia|].
    assert (Hr : In r (filter (fun r => match group_key r with
                                       | Some k => String.eqb (fst k) c && String.eqb (snd k) ty
                                       | None => false
                                       end) t)) by (rewrite E; now left).
    apply filter_In in Hr. destruct Hr as [_ Hr]. unfold group_key in Hr.
    destruct (country r) as [v|]; [|discriminate]. destruct (type r); [|discriminate].
    simpl in Hr. apply andb_true_iff in Hr. destruct Hr as [Hc _].
    apply String.eqb_eq in Hc. subst c. apply first_piece_trimmed.
Qed.

End TrimmedLabels.

(** ** The map against the country ranking *)

Lemma sum_where_cons (p : string * string -> bool) (e : string * string * nat)
      (g : list (string * string * nat)) :
  sum_where p (e :: g) = (if p (fst e) then snd e else 0) + sum_where p g.
Proof. unfold sum_where. simpl. destruct (p (fst e)); reflexivity. Qed.

Lemma group_add_sum (p : string * string -> bool) (k : string * string)
      (g : list (string * string * nat)) :
  sum_where p (Pd.group_add k g) = sum_where p g + (if p k then 1 else 0).
Proof.
  induction g as [|[k' n] g IH]; simpl.
  - rewrite sum_where_cons. simpl. unfold sum_where. simpl. lia.
  - destruct (Pd.key_compare k k') eqn:Hc.
    + apply key_compare_eq in Hc. subst k'. rewrite !sum_where_cons. simpl.
      destruct (p k); lia.
    + rewrite !sum_where_cons. simpl. lia.
    + rewrite !sum_where_cons, IH. simpl. lia.
Qed.

Lemma groupby_sum (p : string * string -> bool) (keys : list (option string * option string)) :
  sum_where p (Pd.groupby_size keys) = List.length (filter (key_where p) keys).
Proof.
  unfold Pd.groupby_size.
  assert (H : forall acc,
             sum_where p (fold_left (fun g k => match k with
                                                | (Some a, Some b) => Pd.group_add (a, b) g
                                                | _ => g
                                                end) keys acc)
             = sum_where p acc + List.length (filter (key_where p) keys)).
  { induction keys as [|[[a|] [b|]] keys IH]; intros acc; simpl; try apply IH; [lia|].
    rewrite IH, group_add_sum. destruct (p (a, b)); simpl; lia. }
  apply H.
Qed.

Lemma sum_where_filter (p q : string * string -> bool) (g : list (string * string * nat)) :
  sum_where p (filter (fun e => q (fst e)) g) = sum_where (fun k => q k && p k) g.
Proof.
  induction g as [|e g IH]; simpl; [reflexivity|].
  rewrite sum_where_cons. destruct (q (fst e)); simpl; [|exact IH].
  now rewrite sum_where_cons, IH.
Qed.

Section MapTotals.
Context {P : Parsers}.

Lemma grouping_sum (p : string * string -> bool) (t : list row) :
  sum_where p (groupByCountryAndType t)
  = List.length (filter (fun r => match group_key r with
                                  | Some k => negb (String.eqb (fst k) "Unknown") && p k
                                  | None => false
                                  end) t).
Proof.
  unfold groupByCountryAndType, country_count.
  rewrite (sum_where_filter p (fun k => negb (String.eqb (fst k) "Unknown"))).
  rewrite groupby_sum, country_df_keys, filter_map_length. f_equal.
  apply filter_ext. intros r. unfold group_key, key_where.
  destruct (country r), (type r); reflexivity.
Qed.

Lemma first_piece_counted (c : string) (t : list row) :
  List.length (filter (fun r => match country r with
                                | Some v => String.eqb (first_piece v) c
                                | None => false
                                end) t)
  <= count_occ string_dec (flat_map pieces (map country t)) c.
Proof.
  induction t as [|r t IH]; simpl; [lia|]. rewrite count_occ_app.
  destruct (country r) as [v|]; [|simpl; lia].
  destruct (String.eqb (first_piece v) c) eqn:E; [|lia].
  apply String.eqb_eq in E. simpl List.length.
  assert (0 < count_occ string_dec (pieces (Some v)) c); [|lia].
  apply count_occ_In. subst c. unfold pieces, first_piece.
  destruct (split_cons "," v) as (p & ps & ->). now left.
Qed.

(** X17. The sizes of the groups of the map add up to the number of rows
    that have a type and a first country other than ["Unknown"], and the
    groups of one country never hold more rows than the country ranking
    counts for that country. *)
Theorem map_totals (t : list row) (c : string) :
  sum_where (fun _ => true) (groupByCountryAndType t)
  = List.length (filter (fun r => match group_key r with
                                  | Some k => negb (String.eqb (fst k) "Unknown")
                                  | None => false
                                  end) t)
  /\ sum_where (fun k => String.eqb (fst k) c) (groupByCountryAndType t)
     <= count_of c (Pd.value_counts (labels (Pd.dropna (map country t)))).
Proof.
  split.
  - rewrite grouping_sum. f_equal. apply filter_ext. intros r.
    destruct (group_key r); [now rewrite andb_true_r|reflexivity].
  - rewrite grouping_sum, ranking_count.
    etransitivity; [|apply first_piece_counted].
    clear. induction t as [|r t IH]; simpl; [lia|].
    unfold group_key at 1. destruct (country r) as [v|]; [|exact IH].
    destruct (type r); simpl.
    + destruct (negb (String.eqb (first_piece v) "Unknown")); simpl;
        destruct (String.eqb (first_piece v) c); simpl; lia.
    + destruct (String.eqb (first_piece v) c); simpl; lia.
Qed.

End MapTotals.

(** ** The size of a coefficient *)




Section CoefficientFacts.
Context {P : Parsers}.


End CoefficientFacts.

(** ** The order of doubles *)

Ltac float_cases :=
  unfold SFltb, SFeqb, SFcompare, Float64.is_nan;
  repeat match goal with
         | x : spec_float |- _ => destruct x as [[]|[]| |[] ? ?]
         end;
  try discriminate; try reflexivity; auto.

Ltac compare_cases :=
  repeat match goal with
         | |- context [Pos.compare_cont Eq ?a ?b] =>
             change (Pos.compare_cont Eq a b) with (Pos.compare a b)
         | H : context [Pos.compare_cont Eq ?a ?b] |- _ =>
             change (Pos.compare_cont Eq a b) with (Pos.compare a b) in H
         end;
  repeat match goal with
         | |- context [Z.compare ?a ?b] => destruct (Z.compare_spec a b)
         | H : context [Z.compare ?a ?b] |- _ => destruct (Z.compare_spec a b)
         | |- context [Pos.compare ?a ?b] => destruct (Pos.compare_spec a b)
         | H : context [Pos.compare ?a ?b] |- _ => destruct (Pos.compare_spec a b)
         end;
  simpl in *; try discriminate; try reflexivity; try lia; auto.

Lemma SFltb_trans (a b c : spec_float) :
  SFltb a b = true -> SFltb b c = true -> SFltb a c = true.
Proof. float_cases; intros; compare_cases. Qed.

Lemma SFeqb_trans (a b c : spec_float) :
  SFeqb a b = true -> SFeqb b c = true -> SFeqb a c = true.
Proof. float_cases; intros; compare_cases. Qed.

Lemma SFeqb_sym (a b : spec_float) : SFeqb a b = SFeqb b a.
Proof. float_cases; compare_cases. Qed.

Lemma SFeqb_refl (a : spec_float) : Float64.is_nan a = false -> SFeqb a a = true.
Proof. float_cases; intros; compare_cases. Qed.

Lemma SFltb_total (a b : spec_float) :
  Float64.is_nan a = false -> Float64.is_nan b = false ->
  SFeqb a b = false -> SFltb a b = false -> SFltb b a = true.
Proof. float_cases; intros; compare_cases. Qed.

Lemma insert_float_perm (x : spec_float) (l : list spec_float) :
  Permutation (insert_float x l) (x :: l).
Proof.
  induction l as [|y l IH]; simpl; [reflexivity|].
  destruct (SFltb y x); [|reflexivity]. rewrite IH. apply perm_swap.
Qed.

Lemma sorted_perm (l : list spec_float) : Permutation (sorted l) l.
Proof.
  induction l as [|x l IH]; simpl; [reflexivity|].
  unfold sorted in *. simpl. rewrite insert_float_perm. now constructor.
Qed.

Lemma insert_float_sorted (x : spec_float) (l : list spec_float) :
  Float64.is_nan x = false ->
  Forall (fun y => Float64.is_nan y = false /\ SFeqb y x = false) l ->
  StronglySorted (fun a b => SFltb a b = true) l ->
  StronglySorted (fun a b => SFltb a b = true) (insert_float x l).
Proof.
  intros Hx Hall Hs. induction Hs as [|y l Hs IH Hy]; simpl.
  - constructor; constructor.
  - inversion Hall as [|? ? [Hny Hne] Hall']; subst.
    destruct (SFltb y x) eqn:E.
    + constructor; [now apply IH|].
      eapply Permutation_Forall; [symmetry; apply insert_float_perm|].
      constructor; assumption.
    + assert (Hxy : SFltb x y = true).
      { apply SFltb_total; auto; now rewrite SFeqb_sym. }
      constructor; [now constructor|]. constructor; [exact Hxy|].
      eapply Forall_impl; [|exact Hy]. intros z Hz. eapply SFltb_trans; eauto.
Qed.

Lemma unique_facts (l : list spec_float) :
  Forall (fun x => Float64.is_nan x = false) l ->
  (forall y, In y (unique l) -> In y l)
  /\ (forall x, In x l -> exists y, In y (unique l) /\ SFeqb x y = true)
  /\ ForallOrdPairs (fun x y => SFeqb y x = false) (unique l).
Proof.
  intros Hl. induction Hl as [|a l Ha Hl (IH1 & IH2 & IH3)]; simpl.
  - repeat split; try contradiction. constructor.
  - repeat split.
    + intros y [<-|Hy]; [now left|]. right. apply filter_In in Hy. now apply IH1.
    + intros x [<-|Hx].
      * exists a. split; [now left|now apply SFeqb_refl].
      * destruct (IH2 x Hx) as (y & Hy & Exy).
        destruct (SFeqb y a) eqn:Eya.
        -- exists a. split; [now left|]. eapply SFeqb_trans; eauto.
        -- exists y. split; [|exact Exy]. right. apply filter_In. now rewrite Eya.
    + constructor.
      * apply Forall_forall. intros y Hy. apply filter_In in Hy.
        destruct Hy as [_ Hy]. now apply negb_true_iff in Hy.
      * clear -IH3. induction IH3 as [|y r Hy Hr IH]; simpl; [constructor|].
        destruct (negb (SFeqb y a)); [|exact IH]. constructor; [|exact IH].
        rewrite Forall_forall in *. intros z Hz. apply filter_In in Hz. now apply Hy.
Qed.

Lemma sorted_distinct (l : list spec_float) :
  Forall (fun x => Float64.is_nan x = false) l ->
  ForallOrdPairs (fun x y => SFeqb y x = false) l ->
  StronglySorted (fun a b => SFltb a b = true) (sorted l).
Proof.
  intros Hn Hp. induction Hp as [|x l Hx Hp IH]; [constructor|].
  inversion Hn as [|? ? Hnx Hnl]; subst. unfold sorted in *. simpl.
  apply insert_float_sorted; [exact Hnx| |now apply IH].
  eapply Permutation_Forall; [symmetry; apply (sorted_perm l)|].
  rewrite Forall_forall in *. intros y Hy. split; [now apply Hnl|now apply Hx].
Qed.

Section YearFacts.
Context {P : Parsers}.

(** X16. The order of the bars of the yearly view is strictly
    increasing: it holds no NaN and no year twice, every year in it is
    the [year_added] of some row, and the [year_added] of every row that
    has one is in it. *)
Theorem years_are_in_order (t : list row) :
  StronglySorted (fun a b => SFltb a b = true) (years_in_order t)
  /\ (forall y, In y (years_in_order t) ->
        Float64.is_nan y = false /\ exists r, In r t /\ year_added r = y)
  /\ (forall r, In r t -> Float64.is_nan (year_added r) = false ->
        exists y, In y (years_in_order t) /\ SFeqb (year_added r) y = true).
Proof.
  unfold years_in_order.
  set (l := filter (fun x => negb (Float64.is_nan x)) (map year_added t)).
  assert (Hl : Forall (fun x => Float64.is_nan x = false) l).
  { apply Forall_forall. intros x Hx. apply filter_In in Hx.
    destruct Hx as [_ Hx]. now apply negb_true_iff in Hx. }
  destruct (unique_facts l Hl) as (H1 & H2 & H3).
  assert (Hu : Forall (fun x => Float64.is_nan x = false) (unique l)).
  { rewrite Forall_forall in *. intros x Hx. apply Hl. now apply H1. }
  split; [now apply sorted_distinct|]. split.
  - intros y Hy. apply (Permutation_in _ (sorted_perm (unique l))) in Hy.
    apply H1 in Hy. rewrite Forall_forall in Hl. split; [now apply Hl|].
    apply filter_In in Hy. destruct Hy as [Hy _]. apply in_map_iff in Hy.
    destruct Hy as (r & E & Hr). eauto.
  - intros r Hr Hn. destruct (H2 (year_added r)) as (y & Hy & E).
    + apply filter_In. split; [now apply in_map|now rewrite Hn].
    + exists y. split; [|exact E].
      apply (Permutation_in _ (Permutation_sym (sorted_perm (unique l)))). exact Hy.
Qed.

End YearFacts.

(** ** The further statements on the sample table *)


Lemma grouping_ignores_row_order_witness :
  Permutation [row_A (P := sample_parsers); row_USA_India] [row_USA_India; row_A]
  /\ groupByCountryAndType [row_A (P := sample_parsers); row_USA_India]
     = groupByCountryAndType [row_USA_India; row_A].
Proof.
  assert (H : Permutation [row_A (P := sample_parsers); row_USA_India] [row_USA_India; row_A])
    by apply perm_swap.
  split; [exact H|exact (grouping_ignores_row_order _ _ H)].
Defined.


